(** * Code360 Profile Extractor (main.py): model and verified properties

    A shallow embedding of [main.py]: the four pipeline stages
    ([fetch_profile_html], [clean_html], [extract_profile_data],
    [save_json]) and the route [scrape_profile] that sequences them.

    Python values are modelled as the interpreter has them: a [str] is a
    sequence of Unicode code points, an exception either escapes a call or
    is caught by the enclosing [try], and the mutable world (browser
    processes, the working directory's files) is threaded through every
    call.  The third-party collaborators (Selenium, BeautifulSoup's parser,
    the Groq client, the [json] codec, the operating system) are not part
    of the repository; the general theorems take their behaviour as a
    parameter, and the worked examples run against small executable models
    of them. *)

From Stdlib Require Import NArith ZArith Ascii String DecimalString Lia.
From stdpp Require Import base option list gmap.

Set Warnings "-register-all".

Open Scope N_scope.
Open Scope list_scope.

(** ** Python strings *)

Module Py.

(** A Python [str] is an immutable sequence of code points. *)
Definition char : Type := N.
Definition str : Type := list char.

(** ASCII literals of the source, written as Rocq strings. *)
Definition lit (s : string) : str :=
  map N_of_ascii (list_ascii_of_string s).

(** The same with every apostrophe standing for a double quote, for
    literals that hold JSON text. *)
Definition litq (s : string) : str :=
  map (fun c => if c =? 39 then 34 else c) (lit s).

Definition nl : char := 10.

(** [len(s)] *)
Definition len (s : str) : Z := Z.of_nat (length s).

(** [str.isspace] for one code point: the table CPython's
    [_PyUnicode_IsWhitespace] switches on. *)
Definition isspace (c : char) : bool :=
  ((9 <=? c) && (c <=? 13)) || ((28 <=? c) && (c <=? 32))
  || (c =? 133) || (c =? 160) || (c =? 5760)
  || ((8192 <=? c) && (c <=? 8202))
  || (c =? 8232) || (c =? 8233) || (c =? 8239) || (c =? 8287)
  || (c =? 12288).

Fixpoint lstrip (s : str) : str :=
  match s with
  | [] => []
  | c :: s' => if isspace c then lstrip s' else s
  end.

Fixpoint rstrip (s : str) : str :=
  match s with
  | [] => []
  | c :: s' =>
      match rstrip s' with
      | [] => if isspace c then [] else [c]
      | r => c :: r
      end
  end.

(** [s.strip()] *)
Definition strip (s : str) : str := lstrip (rstrip s).

(** [s.startswith(p)] *)
Fixpoint startswith (p s : str) : bool :=
  match p, s with
  | [], _ => true
  | _ :: _, [] => false
  | a :: p', b :: s' => (a =? b) && startswith p' s'
  end.

(** [p in s] *)
Fixpoint contains (p s : str) : bool :=
  startswith p s ||
  match s with
  | [] => false
  | _ :: s' => contains p s'
  end.

(** [s.replace(old, new)]: the occurrences of [old] are found left to
    right and do not overlap.  [skip] counts the characters of the
    occurrence just replaced that are still to be passed over. *)
Fixpoint replace_from (old new s : str) (skip : nat) : str :=
  match s with
  | [] => []
  | c :: s' =>
      match skip with
      | S k => replace_from old new s' k
      | O =>
          if startswith old s
          then new ++ replace_from old new s' (pred (length old))
          else c :: replace_from old new s' 0
      end
  end.

Definition replace (old new s : str) : str :=
  match old with
  | [] => new ++ flat_map (fun c => c :: new) s
  | _ :: _ => replace_from old new s 0
  end.

(** [posixpath.join(a, b)] *)
Definition path_join (a b : str) : str :=
  if startswith (lit "/") b then b
  else match last a with
       | None => b
       | Some c => if c =? 47 then a ++ b else a ++ lit "/" ++ b
       end.

End Py.

Import Py.

(** ** Python values handled by the pipeline *)

(** What [json.loads] returns and [json.dump] accepts.  A [float] keeps
    the literal it was read from; a [dict] keeps its insertion order. *)
Inductive pyval : Type :=
| PyNone
| PyBool (b : bool)
| PyInt (z : Z)
| PyFloat (literal : str)
| PyStr (s : str)
| PyList (xs : list pyval)
| PyDict (kvs : list (str * pyval)).

(** [d[k] = v] on an insertion-ordered dict. *)
Fixpoint dict_set (k : str) (v : pyval) (d : list (str * pyval))
  : list (str * pyval) :=
  match d with
  | [] => [(k, v)]
  | (k', v') :: d' =>
      if decide (k = k') then (k, v) :: d' else (k', v') :: dict_set k v d'
  end.

(** [dict(pairs)] *)
Definition dict_of_pairs (pairs : list (str * pyval)) : list (str * pyval) :=
  fold_left (fun d kv => dict_set kv.1 kv.2 d) pairs [].

(** ** The [json] decoder

    An executable model of the standard library's [json.loads] on a [str]
    (json/decoder.py and json/scanner.py), used by the worked examples.
    [None] stands for any exception the decoder raises.  The model has
    no limit on the digits of an integer or on the depth of nesting,
    where the interpreter raises beyond its limits. *)

Module Json.

Definition is_ws (c : char) : bool :=
  (c =? 32) || (c =? 9) || (c =? 10) || (c =? 13).

Fixpoint skip_ws (s : str) : str :=
  match s with
  | c :: s' => if is_ws c then skip_ws s' else s
  | [] => []
  end.

Definition is_digit (c : char) : bool := (48 <=? c) && (c <=? 57).

Definition hex_value (c : char) : option N :=
  if is_digit c then Some (c - 48)
  else if (97 <=? c) && (c <=? 102) then Some (c - 87)
  else if (65 <=? c) && (c <=? 70) then Some (c - 55)
  else None.

(** [_decode_uXXXX] *)
Definition decode_uXXXX (s : str) : option (N * str) :=
  match s with
  | a :: b :: c :: d :: r =>
      a ← hex_value a; b ← hex_value b; c ← hex_value c; d ← hex_value d;
      Some (((a * 16 + b) * 16 + c) * 16 + d, r)
  | _ => None
  end.

(** The tail of [py_scanstring] after a backslash. *)
Definition scan_escape (s : str) : option (char * str) :=
  match s with
  | 34 :: r => Some (34, r)
  | 92 :: r => Some (92, r)
  | 47 :: r => Some (47, r)
  | 98 :: r => Some (8, r)
  | 102 :: r => Some (12, r)
  | 110 :: r => Some (10, r)
  | 114 :: r => Some (13, r)
  | 116 :: r => Some (9, r)
  | 117 :: r =>
      '(u, r1) ← decode_uXXXX r;
      if (55296 <=? u) && (u <=? 56319) then
        match r1 with
        | 92 :: 117 :: r2 =>
            match decode_uXXXX r2 with
            | Some (u2, r3) =>
                if (56320 <=? u2) && (u2 <=? 57343)
                then Some (65536 + (((u - 55296) * 1024) + (u2 - 56320)), r3)
                else Some (u, r1)
            | None => None
            end
        | _ => Some (u, r1)
        end
      else Some (u, r1)
  | _ => None
  end.

(** [py_scanstring(s, end, strict=True)], entered after the opening
    quote.  Every step consumes input, so the length of the input bounds
    the recursion. *)
Fixpoint scanstring_fuel (fuel : nat) (s : str) : option (str * str) :=
  match fuel with
  | O => None
  | S f =>
      match s with
      | [] => None
      | 34 :: r => Some ([], r)
      | 92 :: r =>
          '(c, r1) ← scan_escape r;
          '(cs, r2) ← scanstring_fuel f r1;
          Some (c :: cs, r2)
      | c :: r =>
          if c <? 32 then None
          else '(cs, r2) ← scanstring_fuel f r; Some (c :: cs, r2)
      end
  end.

Definition scanstring (s : str) : option (str * str) :=
  scanstring_fuel (S (length s)) s.

Fixpoint span_digits (s : str) : str * str :=
  match s with
  | c :: s' =>
      if is_digit c then let '(d, r) := span_digits s' in (c :: d, r)
      else ([], s)
  | [] => ([], [])
  end.

Definition digits_value (ds : str) : Z :=
  fold_left (fun acc c => (acc * 10 + Z.of_N (c - 48))%Z) ds 0%Z.

(** The integer part of [NUMBER_RE]: an optional minus sign, then
    either a single zero or a non-zero digit followed by digits. *)
Definition match_integer (s : str) : option (bool * str * str) :=
  let '(neg, s0) :=
    match s with 45 :: r => (true, r) | _ => (false, s) end in
  match s0 with
  | 48 :: r => Some (neg, [48], r)
  | c :: r =>
      if is_digit c
      then let '(ds, r') := span_digits r in Some (neg, c :: ds, r')
      else None
  | [] => None
  end.

(** The optional fraction of [NUMBER_RE]: a dot and at least one digit. *)
Definition match_frac (s : str) : str * str :=
  match s with
  | 46 :: r =>
      match span_digits r with
      | ([], _) => ([], s)
      | (ds, r') => (46 :: ds, r')
      end
  | _ => ([], s)
  end.

(** The optional exponent of [NUMBER_RE]: e or E, an optional sign and
    at least one digit. *)
Definition match_exp (s : str) : str * str :=
  match s with
  | e :: r =>
      if (e =? 101) || (e =? 69) then
        let '(sign, r0) :=
          match r with
          | c :: r' => if (c =? 45) || (c =? 43) then ([c], r') else ([], r)
          | [] => ([], r)
          end in
        match span_digits r0 with
        | ([], _) => ([], s)
        | (ds, r') => (e :: sign ++ ds, r')
        end
      else ([], s)
  | [] => ([], s)
  end.

Definition match_number (s : str) : option (pyval * str) :=
  '(neg, ds, r) ← match_integer s;
  let '(frac, r1) := match_frac r in
  let '(exp, r2) := match_exp r1 in
  let sign := if (neg : bool) then [45] else [] in
  match frac, exp with
  | [], [] =>
      Some (PyInt (if neg then - digits_value ds else digits_value ds)%Z, r2)
  | _, _ => Some (PyFloat (sign ++ ds ++ frac ++ exp), r2)
  end.

(** [_scan_once], [JSONObject] and [JSONArray].  Each call receives less
    fuel than its caller. *)
Fixpoint scan_once (fuel : nat) (s : str) : option (pyval * str) :=
  match fuel with
  | O => None
  | S f =>
      match s with
      | [] => None
      | 34 :: r => '(k, r') ← scanstring r; Some (PyStr k, r')
      | 123 :: r =>
          match skip_ws r with
          | 125 :: r' => Some (PyDict [], r')
          | 34 :: r' =>
              '(pairs, r2) ← object_pairs f r';
              Some (PyDict (dict_of_pairs pairs), r2)
          | _ => None
          end
      | 91 :: r =>
          match skip_ws r with
          | 93 :: r' => Some (PyList [], r')
          | r' => '(xs, r2) ← array_items f r'; Some (PyList xs, r2)
          end
      | c :: _ =>
          if (c =? 110) && startswith (lit "null") s
          then Some (PyNone, drop 4 s)
          else if (c =? 116) && startswith (lit "true") s
          then Some (PyBool true, drop 4 s)
          else if (c =? 102) && startswith (lit "false") s
          then Some (PyBool false, drop 5 s)
          else match match_number s with
               | Some res => Some res
               | None =>
                   if (c =? 78) && startswith (lit "NaN") s
                   then Some (PyFloat (lit "NaN"), drop 3 s)
                   else if (c =? 73) && startswith (lit "Infinity") s
                   then Some (PyFloat (lit "Infinity"), drop 8 s)
                   else if (c =? 45) && startswith (lit "-Infinity") s
                   then Some (PyFloat (lit "-Infinity"), drop 9 s)
                   else None
               end
      end
  end

(** The loop of [JSONObject], entered after the opening quote of a key. *)
with object_pairs (fuel : nat) (s : str)
  : option (list (str * pyval) * str) :=
  match fuel with
  | O => None
  | S f =>
      '(key, r) ← scanstring s;
      match skip_ws r with
      | 58 :: r1 =>
          '(value, r2) ← scan_once f (skip_ws r1);
          match skip_ws r2 with
          | 125 :: r3 => Some ([(key, value)], r3)
          | 44 :: r3 =>
              match skip_ws r3 with
              | 34 :: r4 =>
                  '(rest, r5) ← object_pairs f r4;
                  Some ((key, value) :: rest, r5)
              | _ => None
              end
          | _ => None
          end
      | _ => None
      end
  end

(** The loop of [JSONArray], entered at the first character of an item. *)
with array_items (fuel : nat) (s : str) : option (list pyval * str) :=
  match fuel with
  | O => None
  | S f =>
      '(value, r) ← scan_once f s;
      match skip_ws r with
      | 93 :: r1 => Some ([value], r1)
      | 44 :: r1 =>
          '(rest, r2) ← array_items f (skip_ws r1);
          Some (value :: rest, r2)
      | _ => None
      end
  end.

(** [json.loads(s)]: one value, surrounded by optional whitespace, and
    nothing else. *)
Definition loads (s : str) : option pyval :=
  '(v, r) ← scan_once (2 * length s + 2) (skip_ws s);
  match skip_ws r with
  | [] => Some v
  | _ :: _ => None
  end.

(** [json.dumps(v, indent=4, ensure_ascii=False)].  A float is written
    as the literal it was read from. *)
Definition hex_digit (n : N) : char := if n <? 10 then 48 + n else 87 + n.

Definition escape (c : char) : str :=
  if c =? 34 then [92; 34]
  else if c =? 92 then [92; 92]
  else if c =? 8 then [92; 98]
  else if c =? 12 then [92; 102]
  else if c =? 10 then [92; 110]
  else if c =? 13 then [92; 114]
  else if c =? 9 then [92; 116]
  else if c <? 32 then [92; 117; 48; 48; hex_digit (c / 16); hex_digit (c mod 16)]
  else [c].

Definition encode_str (s : str) : str := [34] ++ flat_map escape s ++ [34].

Definition indentation (level : nat) : str := repeat 32 (4 * level).

Fixpoint join_with (sep : str) (ss : list str) : str :=
  match ss with
  | [] => []
  | [s] => s
  | s :: ss' => s ++ sep ++ join_with sep ss'
  end.

Fixpoint encode (level : nat) (v : pyval) : str :=
  match v with
  | PyNone => lit "null"
  | PyBool true => lit "true"
  | PyBool false => lit "false"
  | PyInt z => lit (NilZero.string_of_int (Z.to_int z))
  | PyFloat literal => literal
  | PyStr s => encode_str s
  | PyList [] => lit "[]"
  | PyList xs =>
      lit "[" ++ [nl]
      ++ join_with (lit "," ++ [nl])
           (map (fun x => indentation (S level) ++ encode (S level) x) xs)
      ++ [nl] ++ indentation level ++ lit "]"
  | PyDict [] => lit "{}"
  | PyDict kvs =>
      lit "{" ++ [nl]
      ++ join_with (lit "," ++ [nl])
           (map (fun kv : str * pyval =>
                   let '(k, x) := kv in
                   indentation (S level) ++ encode_str k ++ lit ": "
                   ++ encode (S level) x) kvs)
      ++ [nl] ++ indentation level ++ lit "}"
  end.

Definition dumps (v : pyval) : str := encode 0 v.

End Json.

(** ** The parse tree of BeautifulSoup *)

(** The classes of string a tree holds.  [get_text] keeps the first two
    only; the others are what the tree builder makes of comments,
    declarations and, in recent releases, of the text directly inside
    [script], [style], [template], [rt] and [rp]. *)
Inductive string_class : Type :=
| NavigableString | CData
| Comment | Declaration | Doctype | ProcessingInstruction
| Script | Stylesheet | TemplateString | RubyTextString
| RubyParenthesisString.

(** Attributes play no part in [clean_html] and are left out. *)
Inductive node : Type :=
| Tag (name : str) (children : list node)
| Text (cls : string_class) (s : str).

Definition soup : Type := list node.

Module Bs4.

Definition name_in (names : list str) (n : str) : bool :=
  bool_decide (n ∈ names).

(** [for tag in soup(names): tag.decompose()]: every element with one of
    the names is cut out of the tree, at any depth, with all it holds. *)
Fixpoint decompose_all (names : list str) (t : node) : list node :=
  match t with
  | Tag n cs =>
      if name_in names n then []
      else [Tag n (flat_map (decompose_all names) cs)]
  | Text c s => [Text c s]
  end.

Definition decompose_soup (names : list str) (sp : soup) : soup :=
  flat_map (decompose_all names) sp.

(** [PageElement.default] string types of [get_text]. *)
Definition interesting (c : string_class) : bool :=
  match c with
  | NavigableString | CData => true
  | _ => false
  end.

(** [_all_strings(strip=True)]: the strings of the descendants in document
    order, each stripped, the empty ones skipped. *)
Fixpoint all_strings (t : node) : list str :=
  match t with
  | Tag _ cs => flat_map all_strings cs
  | Text c s =>
      if interesting c
      then match strip s with [] => [] | s' => [s'] end
      else []
  end.

(** [separator.join(strings)] *)
Fixpoint join (sep : str) (ss : list str) : str :=
  match ss with
  | [] => []
  | [s] => s
  | s :: ss' => s ++ sep ++ join sep ss'
  end.

(** [soup.get_text(separator, strip=True)] *)
Definition get_text (sep : str) (sp : soup) : str :=
  join sep (flat_map all_strings sp).

End Bs4.

(** ** Exceptions, the world and the effect monad *)

(** [HTTPException] is the one exception class the program raises itself;
    every other exception comes out of a collaborator and is known by its
    message. *)
Inductive exn : Type :=
| HTTPException (status_code : Z) (detail : str)
| Exception (msg : str).

Inductive outcome (A : Type) : Type :=
| Returns (a : A)
| Raises (e : exn).
Arguments Returns {A} a.
Arguments Raises {A} e.

(** The calls that leave the process, in the order they are made. *)
Inductive event : Type :=
| Launch (driver : nat)
| Get (driver : nat) (url : str)
| Sleep (seconds : nat)
| SaveScreenshot (driver : nat) (path : str)
| PageSource (driver : nat)
| Quit (driver : nat)
| ClientInit (api_key : option str)
| Invoke (api_key : option str) (prompt : str)
| Remove (path : str)
| OpenW (path : str)
| Write (path : str) (content : str).

Record world : Type := World {
  next_driver : nat;
  live : gset nat;
  environ : gmap str str;
  files : gmap str str;
  trace : list event
}.

(** How the collaborators answer.  [Some msg] in an [option str] answer
    means that the call raises an exception with that message.
    [screenshot_file path] is what [save_screenshot] leaves at [path]:
    the image when it is written, nothing when the file cannot be
    written, which the driver reports by its return value and not by an
    exception. *)
Record externals : Type := Externals {
  chrome_launch : option str;
  driver_get : str -> option str;
  driver_save_screenshot : str -> option str;
  screenshot_file : str -> option str;
  driver_page_source : str -> str + str;
  driver_quit : option str;
  getcwd : str;
  html_parser : str -> soup;
  ChatGroq_init : option str -> option str;
  chain_invoke : option str -> str -> str + str;
  json_loads : str -> option pyval;
  json_dumps : pyval -> str;
  os_remove : str -> option str;
  open_w : str -> option str;
  file_write : str -> str -> option (nat * str)
}.

Definition M (A : Type) : Type := world -> outcome A * world.

Definition ret {A} (a : A) : M A := fun w => (Returns a, w).
Definition raise {A} (e : exn) : M A := fun w => (Raises e, w).

Definition bind {A B} (m : M A) (k : A -> M B) : M B :=
  fun w =>
    match m w with
    | (Returns a, w') => k a w'
    | (Raises e, w') => (Raises e, w')
    end.

(** [try: body / except Exception as e: handler(e)] *)
Definition try_except {A} (body : M A) (handler : exn -> M A) : M A :=
  fun w =>
    match body w with
    | (Returns a, w') => (Returns a, w')
    | (Raises e, w') => handler e w'
    end.

(** [try: body / finally: cleanup]: the cleanup runs on every way out of
    the body; an exception of its own replaces the body's result. *)
Definition try_finally {A} (body : M A) (cleanup : M unit) : M A :=
  fun w =>
    let '(r, w1) := body w in
    match cleanup w1 with
    | (Returns _, w2) => (r, w2)
    | (Raises e, w2) => (Raises e, w2)
    end.

#[global] Instance M_ret : MRet M := @ret.
#[global] Instance M_bind : MBind M := fun A B k m => bind m k.

(** The world after some more calls have been made. *)
Definition log (evs : list event) (w : world) : world :=
  World (next_driver w) (live w) (environ w) (files w) (trace w ++ evs).

(** The world after the files have changed. *)
Definition with_files (f : gmap str str -> gmap str str) (w : world) : world :=
  World (next_driver w) (live w) (environ w) (f (files w)) (trace w).

Definition emit (e : event) : M unit := fun w => (Returns tt, log [e] w).

Definition set_files (f : gmap str str -> gmap str str) : M unit :=
  fun w => (Returns tt, with_files f w).

(** A collaborator's answer, turned into a return or a raise. *)
Definition check (answer : option str) : M unit :=
  match answer with
  | None => ret tt
  | Some msg => raise (Exception msg)
  end.

Definition answer {A} (a : A + str) : M A :=
  match a with
  | inl v => ret v
  | inr msg => raise (Exception msg)
  end.

(** [str(e)] as it appears in an f-string. *)
Definition exn_str (e : exn) : str :=
  match e with
  | Exception msg => msg
  | HTTPException status detail =>
      lit (NilZero.string_of_int (Z.to_int status)) ++ lit ": " ++ detail
  end.

(** ** The pipeline of main.py *)

Section Pipeline.

Variable X : externals.

(** [init_driver]: the options are fixed; only the launch can fail. *)
Definition webdriver_Chrome : M nat :=
  fun w =>
    match chrome_launch X with
    | Some msg => (Raises (Exception msg), w)
    | None =>
        let d := next_driver w in
        (Returns d,
         World (S d) ({[ d ]} ∪ live w) (environ w) (files w)
               (trace w ++ [Launch d]))
    end.

Definition init_driver : M nat :=
  try_except webdriver_Chrome
    (fun e =>
       raise (HTTPException 500 (lit "Selenium init failed: " ++ exn_str e))).

(** [driver.quit()]: the session is torn down, whatever the call then
    reports. *)
Definition quit (d : nat) : M unit :=
  fun w =>
    let w' := World (next_driver w) (live w ∖ {[ d ]}) (environ w) (files w)
                    (trace w ++ [Quit d]) in
    match driver_quit X with
    | None => (Returns tt, w')
    | Some msg => (Raises (Exception msg), w')
    end.

(** The file [driver.save_screenshot(path)] writes. *)
Definition store_screenshot (path : str) (fs : gmap str str) : gmap str str :=
  match screenshot_file X path with
  | Some png => <[path := png]> fs
  | None => fs
  end.

Definition fetch_profile_html (profile_url : str) : M str :=
  driver ← init_driver;
  try_finally
    (emit (Get driver profile_url);;
     check (driver_get X profile_url);;
     emit (Sleep 5);;
     let screenshot_path := path_join (getcwd X) (lit "profile_ss.png") in
     emit (SaveScreenshot driver screenshot_path);;
     check (driver_save_screenshot X screenshot_path);;
     set_files (store_screenshot screenshot_path);;
     emit (PageSource driver);;
     html ← answer (driver_page_source X profile_url);
     mret html)
    (quit driver).

Definition clean_html (html : str) : str :=
  let sp := html_parser X html in
  let sp := Bs4.decompose_soup [lit "script"; lit "style"; lit "noscript"] sp in
  Bs4.get_text [nl] sp.

(** The template of the prompt after [PromptTemplate] has formatted it:
    doubled braces stand for themselves and [{profile_text}] is replaced
    by the text. *)
Definition render_prompt (profile_text : str) : str :=
  lit "You are a precise data extraction model." ++ [nl] ++
  lit "Extract structured JSON from the given profile text with this schema:"
    ++ [nl] ++
  lit "{" ++ [nl] ++
  lit "  'name': string," ++ [nl] ++
  lit "  'headline': string," ++ [nl] ++
  lit "  'about': string," ++ [nl] ++
  lit "  'skills': [string, ...]," ++ [nl] ++
  lit "  'experience': [{'role': string, 'company': string, 'duration': string}],"
    ++ [nl] ++
  lit "  'education': [{'degree': string, 'institute': string, 'year': string}]"
    ++ [nl] ++
  lit "}" ++ [nl] ++
  lit "Return **only JSON**. No markdown." ++ [nl] ++ [nl] ++
  lit "Profile Text:" ++ [nl] ++ profile_text.

Definition getenv (name : str) : M (option str) :=
  fun w => (Returns (environ w !! name), w).

(** What line 98 makes of the stripped response. *)
Definition strip_fences (output : str) : str :=
  strip (replace (lit "```") [] (replace (lit "```json") [] output)).

(** A response wrapped in a code fence labelled as JSON. *)
Definition fenced (body : str) : str :=
  lit "```json" ++ [nl] ++ body ++ [nl] ++ lit "```".

(** Lines 95 to 101 on the content of the response: the [try] rebinds
    [output] before [json.loads] can raise, so the handler sees the
    cleaned text. *)
Definition parse_response (content : str) : pyval :=
  let output := strip content in
  let output := strip_fences output in
  match json_loads X output with
  | Some v => v
  | None => PyDict [(lit "raw", PyStr output)]
  end.

(** Lines 70 to 101: the client is built with whatever [os.getenv]
    gives, the chain is invoked once, the response is post-processed. *)
Definition invoke_model (text : str) : M pyval :=
  key ← getenv (lit "GROQ_API_KEY");
  emit (ClientInit key);;
  check (ChatGroq_init X key);;
  let prompt := render_prompt text in
  emit (Invoke key prompt);;
  content ← answer (chain_invoke X key prompt);
  mret (parse_response content).

Definition extract_profile_data (text : str) : M pyval :=
  if bool_decide (text = []) || (len (strip text) <? 100)%Z
  then raise (HTTPException 400 (lit "Insufficient profile text extracted."))
  else invoke_model text.

Definition path_exists (path : str) : M bool :=
  fun w => (Returns (bool_decide (is_Some (files w !! path))), w).

(** [with open(path, "w") as f: json.dump(data, f, ...)]: opening creates
    or truncates the file; a write that fails leaves what had reached the
    file before the failure. *)
Definition write_json (path : str) (data : pyval) : M unit :=
  emit (OpenW path);;
  check (open_w X path);;
  set_files (insert path []);;
  let text := json_dumps X data in
  match file_write X path text with
  | None =>
      emit (Write path text);;
      set_files (insert path text)
  | Some (k, msg) =>
      emit (Write path (take k text));;
      set_files (insert path (take k text));;
      raise (Exception msg)
  end.

Definition save_json (data : pyval) (filename : str) : M str :=
  let path := path_join (getcwd X) filename in
  ex ← path_exists path;
  (if ex : bool
   then emit (Remove path);;
        check (os_remove X path);;
        set_files (delete path)
   else mret tt);;
  write_json path data;;
  mret path.

Record response : Type := Response {
  success : bool;
  url : str;
  screenshot : str;
  json_path : str;
  data : pyval
}.

(** Lines 115 to 118. *)
Definition resolve_url (username : str) : str :=
  if negb (contains (lit "naukri.com") username)
  then lit "https://www.naukri.com/code360/profile/" ++ username
  else username.

Definition scrape_profile (username : str) : M response :=
  let profile_url := resolve_url username in
  html ← fetch_profile_html profile_url;
  let text := clean_html html in
  extracted ← extract_profile_data text;
  json_path ← save_json extracted (lit "profile_data.json");
  mret (Response true profile_url (lit "profile_ss.png") json_path extracted).

(** The status FastAPI answers with: 200 for a returned value (one the
    framework can serialize), the status of an [HTTPException], 500 for
    any other exception. *)
Definition status_code_of {A} (r : outcome A) : Z :=
  match r with
  | Returns _ => 200
  | Raises (HTTPException status _) => status
  | Raises (Exception _) => 500
  end.

End Pipeline.

(** The calls made inside the [try] of [fetch_profile_html], and its
    result, by the answers of the driver. *)
Definition browse (X : externals) (d : nat) (profile_url : str)
  : outcome str * list event :=
  let path := path_join (getcwd X) (lit "profile_ss.png") in
  match driver_get X profile_url with
  | Some m => (Raises (Exception m), [Get d profile_url])
  | None =>
      match driver_save_screenshot X path with
      | Some m =>
          (Raises (Exception m),
           [Get d profile_url; Sleep 5; SaveScreenshot d path])
      | None =>
          (match driver_page_source X profile_url with
           | inl html => Returns html
           | inr m => Raises (Exception m)
           end,
           [Get d profile_url; Sleep 5; SaveScreenshot d path; PageSource d])
      end
  end.

(** The files after the [try] of [fetch_profile_html]: the screenshot is
    there once the navigation and the capture have succeeded. *)
Definition browse_files (X : externals) (profile_url : str)
    (fs : gmap str str) : gmap str str :=
  let path := path_join (getcwd X) (lit "profile_ss.png") in
  match driver_get X profile_url, driver_save_screenshot X path with
  | None, None => store_screenshot X path fs
  | _, _ => fs
  end.

(** An event of a browser session. *)
Definition driver_of (e : event) : option nat :=
  match e with
  | Launch d | Get d _ | SaveScreenshot d _ | PageSource d | Quit d => Some d
  | _ => None
  end.

(** The credentials with which the model was invoked, in order. *)
Definition invocations (evs : list event) : list (option str) :=
  flat_map (fun e => match e with Invoke k _ => [k] | _ => [] end) evs.

(** Every session that is live was started by an earlier launch. *)
Definition sessions_ok (w : world) : Prop :=
  forall d, d ∈ live w -> (d < next_driver w)%nat.

(** The element names [clean_html] removes. *)
Definition blocked : list str := [lit "script"; lit "style"; lit "noscript"].




(** ** A lenient markup parser

    An executable stand-in for [BeautifulSoup(html, "html.parser")], used
    by the worked examples only; the theorems hold for whatever parser
    [html_parser] is.  It follows the main loop of [html.parser] and the
    tree builder of BeautifulSoup: text, numeric and the most common
    named character references, start and end tags, comments,
    declarations, processing instructions, the raw text of [script] and
    [style], void elements, and end tags that close the nearest open
    element of their name.  Markup that does not close is kept as
    text. *)

Module Html.

Definition lower (c : char) : char :=
  if (65 <=? c) && (c <=? 90) then c + 32 else c.

Definition is_alpha (c : char) : bool :=
  let c := lower c in (97 <=? c) && (c <=? 122).

(** The input before and after the first occurrence of [pat]. *)
Fixpoint split_at (pat s : str) : option (str * str) :=
  if startswith pat s then Some ([], drop (length pat) s)
  else match s with
       | [] => None
       | c :: s' => '(a, b) ← split_at pat s'; Some (c :: a, b)
       end.

(** The inside of a tag up to its closing angle bracket, which does not
    count inside a quoted attribute value. *)
Fixpoint tag_end (quote : option char) (s : str) : option (str * str) :=
  match s with
  | [] => None
  | c :: s' =>
      match quote with
      | Some q =>
          '(a, b) ← tag_end (if c =? q then None else quote) s';
          Some (c :: a, b)
      | None =>
          if c =? 62 then Some ([], s')
          else '(a, b) ← tag_end (if (c =? 34) || (c =? 39)
                                  then Some c else None) s';
               Some (c :: a, b)
      end
  end.

(** The name that opens the inside of a tag, in lower case. *)
Fixpoint tag_name (s : str) : str :=
  match s with
  | c :: s' =>
      if isspace c || (c =? 47) || (c =? 62) then []
      else lower c :: tag_name s'
  | [] => []
  end.

Definition void_elements : list str :=
  map lit ["area"; "base"; "br"; "col"; "embed"; "hr"; "img"; "input";
           "keygen"; "link"; "menuitem"; "meta"; "param"; "source";
           "track"; "wbr"; "basefont"; "bgsound"; "command"; "frame";
           "image"; "isindex"; "nextid"; "spacer"]%string.

Definition string_containers : list (str * string_class) :=
  [(lit "rt", RubyTextString); (lit "rp", RubyParenthesisString);
   (lit "style", Stylesheet); (lit "script", Script);
   (lit "template", TemplateString)].

Fixpoint assoc {V} (k : str) (l : list (str * V)) : option V :=
  match l with
  | [] => None
  | (k', v) :: l' => if decide (k = k') then Some v else assoc k l'
  end.

(** The open elements, innermost first, each with the children it has so
    far in reverse order; the last frame is the document itself. *)
Record builder : Type := Builder {
  stack : list (str * list node);
  document : list node;
  current_data : str
}.

Definition add_node (n : node) (b : builder) : builder :=
  match stack b with
  | [] => Builder [] (n :: document b) (current_data b)
  | (name, cs) :: fs => Builder ((name, n :: cs) :: fs) (document b)
                                (current_data b)
  end.

(** The class of a string made inside the open elements. *)
Fixpoint string_container (frames : list (str * list node)) : string_class :=
  match frames with
  | [] => NavigableString
  | (name, _) :: fs =>
      match assoc name string_containers with
      | Some c => c
      | None => string_container fs
      end
  end.

(** [endData]: the text collected so far becomes one string. *)
Definition end_data (b : builder) : builder :=
  match current_data b with
  | [] => b
  | s => add_node (Text (string_container (stack b)) s)
                  (Builder (stack b) (document b) [])
  end.

Definition handle_data (s : str) (b : builder) : builder :=
  Builder (stack b) (document b) (current_data b ++ s).

Definition push_tag (name : str) (b : builder) : builder :=
  let b := end_data b in
  Builder ((name, []) :: stack b) (document b) (current_data b).

Definition pop_tag (b : builder) : builder :=
  match stack b with
  | [] => b
  | (name, cs) :: fs =>
      add_node (Tag name (rev cs)) (Builder fs (document b) (current_data b))
  end.

(** [_popToTag]: close the open elements up to the nearest one called
    [name]. *)
Fixpoint pop_to_tag (name : str) (n : nat) (b : builder) : builder :=
  match n with
  | O => b
  | S n' =>
      match stack b with
      | [] => b
      | (name', _) :: _ =>
          if decide (name = name') then pop_tag b
          else pop_to_tag name n' (pop_tag b)
      end
  end.

Definition handle_endtag (name : str) (b : builder) : builder :=
  let b := end_data b in
  if bool_decide (name ∈ map fst (stack b))
  then pop_to_tag name (length (stack b)) b
  else b.

Definition handle_starttag (name : str) (self_closing : bool) (b : builder)
  : builder :=
  let b := push_tag name b in
  if self_closing || bool_decide (name ∈ void_elements)
  then handle_endtag name b else b.

Definition handle_string (c : string_class) (s : str) (b : builder)
  : builder :=
  add_node (Text c s) (end_data b).

Definition finish (b : builder) : soup :=
  let b := end_data b in
  let b := fold_left (fun b _ => pop_tag b) (stack b) b in
  rev (document b).

Definition named_entities : list (str * char) :=
  [(lit "lt", 60); (lit "gt", 62); (lit "amp", 38); (lit "quot", 34);
   (lit "apos", 39); (lit "nbsp", 160)].

(** A character reference at the head of the input, after the
    ampersand. *)
Definition char_ref (s : str) : option (char * str) :=
  '(name, rest) ← split_at (lit ";") s;
  match name with
  | [35] | [35; 120] | [35; 88] => None
  | 35 :: x :: hs =>
      if (lower x =? 120)
      then hs ← mapM Json.hex_value hs;
           Some (fold_left (fun acc h => acc * 16 + h) hs 0, rest)
      else if forallb Json.is_digit (x :: hs)
      then Some (Z.to_N (Json.digits_value (x :: hs)), rest)
      else None
  | _ => c ← assoc name named_entities; Some (c, rest)
  end.

(** The close tag that ends the raw text of [script] or [style]. *)
Definition raw_close (elem s : str) : option str :=
  match s with
  | 60 :: 47 :: s' =>
      if startswith elem (map lower s')
      then match lstrip (drop (length elem) s') with
           | 62 :: rest => Some rest
           | _ => None
           end
      else None
  | _ => None
  end.

Fixpoint goahead (fuel : nat) (raw : option str) (s : str) (b : builder)
  : soup :=
  match fuel with
  | O => finish b
  | S f =>
      match s with
      | [] => finish b
      | c :: s' =>
          match raw with
          | Some elem =>
              match raw_close elem s with
              | Some rest => goahead f None rest (handle_endtag elem b)
              | None => goahead f raw s' (handle_data [c] b)
              end
          | None =>
              if c =? 38 then
                match char_ref s' with
                | Some (x, rest) => goahead f None rest (handle_data [x] b)
                | None => goahead f None s' (handle_data [c] b)
                end
              else if negb (c =? 60) then goahead f None s' (handle_data [c] b)
              else
                match s' with
                | 33 :: 45 :: 45 :: s2 =>
                    match split_at (lit "-->") s2 with
                    | Some (body, rest) =>
                        goahead f None rest (handle_string Comment body b)
                    | None => goahead f None s' (handle_data [c] b)
                    end
                | 33 :: s2 =>
                    if startswith (lit "[CDATA[") s2 then
                      match split_at (lit "]]>") (drop 7 s2) with
                      | Some (body, rest) =>
                          goahead f None rest (handle_string CData body b)
                      | None => goahead f None s' (handle_data [c] b)
                      end
                    else
                      match split_at (lit ">") s2 with
                      | Some (body, rest) =>
                          goahead f None rest
                            (handle_string
                               (if startswith (lit "doctype")
                                     (map lower body)
                                then Doctype else Declaration) body b)
                      | None => goahead f None s' (handle_data [c] b)
                      end
                | 63 :: s2 =>
                    match split_at (lit ">") s2 with
                    | Some (body, rest) =>
                        goahead f None rest
                          (handle_string ProcessingInstruction body b)
                    | None => goahead f None s' (handle_data [c] b)
                    end
                | 47 :: s2 =>
                    match tag_end None s2 with
                    | Some (inside, rest) =>
                        goahead f None rest
                          (handle_endtag (tag_name inside) b)
                    | None => goahead f None s' (handle_data [c] b)
                    end
                | a :: _ =>
                    if is_alpha a then
                      match tag_end None s' with
                      | Some (inside, rest) =>
                          let name := tag_name inside in
                          let closing :=
                            match last inside with
                            | Some 47 => true
                            | _ => false
                            end in
                          goahead f
                            (if negb closing
                                && bool_decide (name ∈ [lit "script"; lit "style"])
                             then Some name else None)
                            rest (handle_starttag name closing b)
                      | None => goahead f None s' (handle_data [c] b)
                      end
                    else goahead f None s' (handle_data [c] b)
                | [] => goahead f None s' (handle_data [c] b)
                end
          end
      end
  end.

Definition parse (html : str) : soup :=
  goahead (S (length html)) None html (Builder [] [] []).

End Html.

(** ** Worked scenarios *)

Module Scenario.

(** A client constructor that refuses to be built without a key. *)
Definition strict_client (key : option str) : option str :=
  match key with
  | Some _ => None
  | None => Some (lit "Did not find groq_api_key")
  end.

(** A run in which every collaborator succeeds: the browser renders
    [page] and the model answers [reply]. *)
Definition nominal (page reply : str) : externals :=
  {| chrome_launch := None;
     driver_get := fun _ => None;
     driver_save_screenshot := fun _ => None;
     screenshot_file := fun _ => Some (lit "PNG");
     driver_page_source := fun _ => inl page;
     driver_quit := None;
     getcwd := lit "/srv/app";
     html_parser := Html.parse;
     ChatGroq_init := strict_client;
     chain_invoke := fun _ _ => inl reply;
     json_loads := Json.loads;
     json_dumps := Json.dumps;
     os_remove := fun _ => None;
     open_w := fun _ => None;
     file_write := fun _ _ => None |}.

Definition with_launch (a : option str) (X : externals) : externals :=
  Externals a (driver_get X) (driver_save_screenshot X)
    (screenshot_file X) (driver_page_source X) (driver_quit X) (getcwd X)
    (html_parser X)
    (ChatGroq_init X) (chain_invoke X) (json_loads X) (json_dumps X)
    (os_remove X) (open_w X) (file_write X).

Definition with_get (a : option str) (X : externals) : externals :=
  Externals (chrome_launch X) (fun _ => a) (driver_save_screenshot X)
    (screenshot_file X) (driver_page_source X) (driver_quit X) (getcwd X)
    (html_parser X)
    (ChatGroq_init X) (chain_invoke X) (json_loads X) (json_dumps X)
    (os_remove X) (open_w X) (file_write X).

Definition with_invoke (a : str + str) (X : externals) : externals :=
  Externals (chrome_launch X) (driver_get X) (driver_save_screenshot X)
    (screenshot_file X) (driver_page_source X) (driver_quit X) (getcwd X)
    (html_parser X)
    (ChatGroq_init X) (fun _ _ => a) (json_loads X) (json_dumps X)
    (os_remove X) (open_w X) (file_write X).

Definition with_open (a : option str) (X : externals) : externals :=
  Externals (chrome_launch X) (driver_get X) (driver_save_screenshot X)
    (screenshot_file X) (driver_page_source X) (driver_quit X) (getcwd X)
    (html_parser X)
    (ChatGroq_init X) (chain_invoke X) (json_loads X) (json_dumps X)
    (os_remove X) (fun _ => a) (file_write X).

Definition with_write (a : option (nat * str)) (X : externals) : externals :=
  Externals (chrome_launch X) (driver_get X) (driver_save_screenshot X)
    (screenshot_file X) (driver_page_source X) (driver_quit X) (getcwd X)
    (html_parser X)
    (ChatGroq_init X) (chain_invoke X) (json_loads X) (json_dumps X)
    (os_remove X) (open_w X) (fun _ _ => a).

(** A process with the credential set and an empty working directory. *)
Definition fresh_world : world :=
  World 0 ∅ {[ lit "GROQ_API_KEY" := lit "gsk_test" ]} ∅ [].

(** The same process without the credential. *)
Definition keyless_world : world := World 0 ∅ ∅ ∅ [].

(** A process whose working directory holds the record of an earlier
    request. *)
Definition used_world : world :=
  World 0 ∅ {[ lit "GROQ_API_KEY" := lit "gsk_test" ]}
        {[ lit "/srv/app/profile_data.json" := litq "{'name': 'old'}" ]} [].

(** A profile page with enough visible text to pass the guard. *)
Definition profile_page : str :=
  lit "<html><head><title>Code360</title><script>var t = 1;</script>"
  ++ lit "<style>p { color: red }</style></head><body>"
  ++ lit "<h1>Jane Doe - Senior Engineer</h1>"
  ++ lit "<p>Ten years of building compilers, databases and distributed "
  ++ lit "systems for people who would rather not think about them.</p>"
  ++ lit "<noscript>Enable JavaScript</noscript></body></html>".

Definition profile_reply : str :=
  litq "{'name':'Jane Doe','headline':'Senior Engineer','about':'',"
  ++ litq "'skills':[],'experience':[],'education':[]}".

End Scenario.

(** ** Vocabulary of the proofs *)

(** A text made of whitespace only, and a text with no whitespace in it. *)
Definition spaces (w : str) : Prop := Forall (fun c => isspace c = true) w.
Definition spaceless (p : str) : Prop := Forall (fun c => isspace c = false) p.

(** A text that starts and ends with something other than whitespace,
    or is empty. *)
Definition tight (s : str) : Prop :=
  match s with
  | [] => True
  | c :: _ =>
      isspace c = false
      /\ exists c', last s = Some c' /\ isspace c' = false
  end.

(** [soup(names)], that is [find_all]: the elements with one of the names,
    in document order, at any depth. *)
Fixpoint find_all (names : list str) (t : node) : list node :=
  match t with
  | Tag n cs =>
      (if Bs4.name_in names n then [t] else [])
      ++ flat_map (find_all names) cs
  | Text _ _ => []
  end.

Arguments replace : simpl never.
Arguments strip : simpl never.
Arguments lit : simpl never.
Arguments litq : simpl never.

(** Unfolds the monad down to functions on worlds. *)
Ltac run :=
  unfold mbind, M_bind, bind, mret, M_ret, ret, raise, try_except,
    try_finally, emit, set_files, check, answer, getenv, path_exists in *.

(** A constructor that differs from every element of an explicit list. *)
Ltac not_listed :=
  let H := fresh in
  intros H;
  repeat (apply elem_of_cons in H as [H|H]; [discriminate|]);
  by apply elem_of_nil in H.

(** * Properties *)

(** ** Strings *)

Section StringFacts.

Implicit Types (p s t u w : str) (c : char).

Lemma startswith_spec p s :
  startswith p s = true <-> exists r, s = p ++ r.
Proof.
  revert s. induction p as [|a p IH]; intros s; simpl.
  - split; [eauto | done].
  - destruct s as [|b s]; simpl.
    + split; [done | intros [r Hr]; discriminate].
    + rewrite andb_true_iff, N.eqb_eq, IH. split.
      * intros [-> [r ->]]. eauto.
      * intros [r Hr]. injection Hr as -> ->. eauto.
Qed.

Lemma contains_spec p s :
  contains p s = true <-> exists a b, s = a ++ p ++ b.
Proof.
  induction s as [|c s IH]; simpl.
  - rewrite orb_false_r, startswith_spec. split.
    + intros [r Hr]. exists [], r. done.
    + intros [a [b Hab]]. destruct a; simpl in Hab; [eauto | discriminate].
  - rewrite orb_true_iff, startswith_spec, IH. split.
    + intros [[r Hr] | [a [b Hab]]].
      * exists [], r. done.
      * exists (c :: a), b. by rewrite Hab.
    + intros [a [b Hab]]. destruct a as [|c' a]; simpl in Hab.
      * left. eauto.
      * right. injection Hab as _ ->. eauto.
Qed.

Lemma startswith_app p u v :
  startswith p u = true -> startswith p (u ++ v) = true.
Proof.
  rewrite !startswith_spec. intros [r ->]. exists (r ++ v).
  by rewrite app_assoc.
Qed.

(** An occurrence of [p] cannot run across a character that [p] does not
    hold. *)
Lemma startswith_before_sep p u c t :
  c ∉ p -> startswith p (u ++ c :: t) = true ->
  startswith p u = true /\ (length p <= length u)%nat.
Proof.
  revert u. induction p as [|a p IH]; intros u Hc H; simpl in *.
  - split; [done | lia].
  - apply not_elem_of_cons in Hc as [Hca Hcp].
    destruct u as [|b u]; simpl in *.
    + apply andb_true_iff in H as [H _]. apply N.eqb_eq in H. congruence.
    + apply andb_true_iff in H as [-> H]. destruct (IH u Hcp H) as [-> Hlen].
      split; [done | lia].
Qed.

Lemma replace_from_skip old new t s :
  replace_from old new (t ++ s) (length t) = replace_from old new s 0.
Proof. induction t as [|c t IH]; simpl; [by destruct s | done]. Qed.

Lemma replace_nonempty o old new s :
  replace (o :: old) new s = replace_from (o :: old) new s 0.
Proof. done. Qed.

Lemma replace_occurrence o old new s :
  replace (o :: old) new ((o :: old) ++ s) = new ++ replace (o :: old) new s.
Proof.
  rewrite !replace_nonempty. simpl.
  assert (startswith old (old ++ s) = true) as ->
    by (apply startswith_spec; eauto).
  rewrite N.eqb_refl. simpl. by rewrite replace_from_skip.
Qed.

Lemma replace_other_head o old new c s :
  c <> o -> replace (o :: old) new (c :: s) = c :: replace (o :: old) new s.
Proof.
  intros Hc. rewrite !replace_nonempty. simpl.
  destruct (N.eqb_spec o c); [congruence | done].
Qed.

Lemma replace_from_sep o old new c t s k :
  c ∉ o :: old -> (k <= length s)%nat ->
  replace_from (o :: old) new (s ++ c :: t) k
  = replace_from (o :: old) new s k ++ c :: replace_from (o :: old) new t 0.
Proof.
  intros Hc. revert k. induction s as [|a s IH]; intros k Hk.
  - assert (k = 0%nat) as -> by (simpl in Hk; lia).
    pose proof Hc as Hc'. apply not_elem_of_cons in Hc' as [Hco _].
    change ([] ++ c :: t) with (c :: t).
    rewrite <- !replace_nonempty, replace_other_head; done.
  - destruct k as [|k]; [|simpl; apply IH; simpl in Hk; lia].
    change ((a :: s) ++ c :: t) with (a :: (s ++ c :: t)).
    cbn [replace_from].
    destruct (startswith (o :: old) (a :: s ++ c :: t)) eqn:Hpre.
    + apply (startswith_before_sep _ (a :: s)) in Hpre as [-> Hlen]; [|done].
      rewrite IH by (simpl in *; lia). by rewrite app_assoc.
    + destruct (startswith (o :: old) (a :: s)) eqn:Hpre'.
      * apply (startswith_app _ _ (c :: t)) in Hpre'. simpl in *. congruence.
      * simpl. by rewrite IH by lia.
Qed.

Lemma replace_sep o old new c s t :
  c ∉ o :: old ->
  replace (o :: old) new (s ++ c :: t)
  = replace (o :: old) new s ++ c :: replace (o :: old) new t.
Proof. intros Hc. rewrite !replace_nonempty. apply replace_from_sep; [done | lia]. Qed.

(** Whitespace around a text stays where it is when the pattern holds no
    whitespace. *)

Lemma spaceless_not_elem p c : spaceless p -> isspace c = true -> c ∉ p.
Proof.
  intros Hp Hc Hin. unfold spaceless in Hp. rewrite Forall_forall in Hp.
  apply Hp in Hin. congruence.
Qed.

Lemma replace_spaces o old new w :
  spaceless (o :: old) -> spaces w -> replace (o :: old) new w = w.
Proof.
  intros Hp. induction 1 as [|c w Hc _ IH]; [done|].
  rewrite replace_other_head, IH; [done|].
  intros ->. apply Forall_inv in Hp. congruence.
Qed.

Lemma replace_in_spaces o old new w1 s w2 :
  spaceless (o :: old) -> spaces w1 -> spaces w2 ->
  replace (o :: old) new (w1 ++ s ++ w2)
  = w1 ++ replace (o :: old) new s ++ w2.
Proof.
  intros Hp H1 H2. induction H1 as [|c w1 Hc _ IH].
  - simpl. destruct H2 as [|c w2 Hc H2]; [by rewrite !app_nil_r|].
    rewrite replace_sep by (by apply spaceless_not_elem).
    rewrite (replace_spaces _ _ _ w2); done.
  - simpl. rewrite replace_other_head, IH; [done|].
    intros ->. apply Forall_inv in Hp. congruence.
Qed.

Lemma lstrip_spaces w s : spaces w -> lstrip (w ++ s) = lstrip s.
Proof. induction 1 as [|c w Hc _ IH]; simpl; [done | by rewrite Hc]. Qed.

Lemma rstrip_spaces s w : spaces w -> rstrip (s ++ w) = rstrip s.
Proof.
  intros Hw. induction s as [|c s IH]; simpl.
  - induction Hw as [|c w Hc _ IH]; simpl; [done | by rewrite IH, Hc].
  - by rewrite IH.
Qed.

Lemma rstrip_after_spaces w s :
  spaces w ->
  rstrip (w ++ s) = match rstrip s with [] => [] | _ => w ++ rstrip s end.
Proof.
  induction 1 as [|c w Hc _ IH]; simpl; [by destruct (rstrip s)|].
  rewrite IH. destruct (rstrip s); simpl; [by rewrite Hc|].
  by destruct w.
Qed.

Lemma strip_in_spaces w1 s w2 :
  spaces w1 -> spaces w2 -> strip (w1 ++ s ++ w2) = strip s.
Proof.
  intros H1 H2. unfold strip.
  rewrite app_assoc, rstrip_spaces, rstrip_after_spaces by done.
  destruct (rstrip s) eqn:E; [done|]. by rewrite lstrip_spaces.
Qed.

Lemma lstrip_split s : exists w, spaces w /\ s = w ++ lstrip s.
Proof.
  induction s as [|c s [w [Hw IH]]]; simpl.
  - exists []. split; [constructor | done].
  - destruct (isspace c) eqn:Hc.
    + exists (c :: w). split; [by constructor|]. simpl. by rewrite <- IH.
    + exists []. split; [constructor | done].
Qed.

Lemma rstrip_split s : exists w, spaces w /\ s = rstrip s ++ w.
Proof.
  induction s as [|c s [w [Hw IH]]]; simpl.
  - exists []. split; [constructor | done].
  - destruct (rstrip s) eqn:E.
    + destruct (isspace c) eqn:Hc.
      * exists (c :: w). split; [by constructor|]. simpl in IH. by rewrite IH.
      * exists w. split; [done|]. simpl in *. by rewrite IH.
    + exists w. split; [done|]. simpl in *. by rewrite <- IH.
Qed.

Lemma strip_split s :
  exists w1 w2, spaces w1 /\ spaces w2 /\ s = w1 ++ strip s ++ w2.
Proof.
  destruct (rstrip_split s) as [w2 [H2 E2]].
  destruct (lstrip_split (rstrip s)) as [w1 [H1 E1]].
  exists w1, w2. split; [done|]. split; [done|].
  unfold strip. by rewrite app_assoc, <- E1.
Qed.

Lemma strip_length s : (length (strip s) <= length s)%nat.
Proof.
  destruct (strip_split s) as [w1 [w2 [_ [_ E]]]].
  rewrite E at 2. rewrite !length_app. lia.
Qed.

End StringFacts.

(** ** Post-processing of the model's response *)

Section Fences.

Lemma lstrip_nonspace c s : isspace c = false -> lstrip (c :: s) = c :: s.
Proof. intros H. simpl. by rewrite H. Qed.

Lemma rstrip_nonspace s c : isspace c = false -> rstrip (s ++ [c]) = s ++ [c].
Proof.
  intros H. induction s as [|a s IH]; simpl; [by rewrite H|].
  rewrite IH. by destruct s.
Qed.

Lemma strip_fenced body : strip (fenced body) = fenced body.
Proof.
  unfold strip, fenced.
  change (lit "```") with ([96; 96] ++ [96]).
  rewrite !app_assoc, rstrip_nonspace by done.
  rewrite <- !app_assoc. by apply lstrip_nonspace.
Qed.

Lemma replace_label_fenced body :
  replace (lit "```json") [] (fenced body)
  = nl :: replace (lit "```json") [] body ++ nl :: lit "```".
Proof.
  unfold fenced.
  change (lit "```json") with [96; 96; 96; 106; 115; 111; 110].
  rewrite replace_occurrence. simpl.
  rewrite replace_other_head by done.
  rewrite replace_sep by (by apply (bool_decide_unpack _); vm_compute).
  done.
Qed.

Lemma replace_ticks_between s :
  replace (lit "```") [] (nl :: s ++ nl :: lit "```")
  = nl :: replace (lit "```") [] s ++ [nl].
Proof.
  change (lit "```") with [96; 96; 96].
  rewrite replace_other_head by done.
  rewrite replace_sep by (by apply (bool_decide_unpack _); vm_compute).
  done.
Qed.

Lemma spaceless_label : spaceless (lit "```json").
Proof. by apply (bool_decide_unpack _); vm_compute. Qed.

Lemma spaceless_ticks : spaceless (lit "```").
Proof. by apply (bool_decide_unpack _); vm_compute. Qed.

(** The fences commute with the whitespace around a text. *)
Lemma strip_fences_strip s : strip_fences (strip s) = strip_fences s.
Proof.
  unfold strip_fences.
  destruct (strip_split s) as [w1 [w2 [H1 [H2 E]]]].
  rewrite E at 2.
  pose proof spaceless_label as Hl. pose proof spaceless_ticks as Ht.
  change (lit "```json") with [96; 96; 96; 106; 115; 111; 110] in *.
  change (lit "```") with [96; 96; 96] in *.
  rewrite !replace_in_spaces, strip_in_spaces; done.
Qed.

Lemma strip_fences_fenced body : strip_fences (fenced body) = strip_fences body.
Proof.
  unfold strip_fences.
  rewrite replace_label_fenced, replace_ticks_between.
  apply (strip_in_spaces [nl] _ [nl]); by repeat constructor.
Qed.

End Fences.

(** C4.  A response wrapped in a JSON-labelled code fence is
    post-processed to the same result as the response without the fence:
    for every body and every decoder the two extraction results are
    equal, and both are the value the decoder gives for the cleaned body.
    With the library's decoder, the fenced and the bare response
    [{"name":"A"}] both parse to the record with the single field [name]
    holding ["A"]. *)
Theorem C4_fence_stripping :
  (forall (X : externals) (body : str),
      parse_response X (fenced body) = parse_response X body)
  /\ (forall (X : externals) (body : str) (v : pyval),
        json_loads X (strip_fences body) = Some v ->
        parse_response X (fenced body) = v /\ parse_response X body = v)
  /\ (forall X : externals,
        json_loads X = Json.loads ->
        parse_response X (fenced (litq "{'name':'A'}"))
        = PyDict [(lit "name", PyStr (lit "A"))]
        /\ parse_response X (litq "{'name':'A'}")
           = PyDict [(lit "name", PyStr (lit "A"))])
  /\ strip_fences (strip (fenced (litq "{'name':'A'}"))) = litq "{'name':'A'}"
  /\ strip_fences (strip (litq "{'name':'A'}")) = litq "{'name':'A'}"
  /\ Json.loads (litq "{'name':'A'}")
     = Some (PyDict [(lit "name", PyStr (lit "A"))]).
Proof.
  assert (forall (X : externals) (body : str),
             parse_response X (fenced body) = parse_response X body) as Hsame.
  { intros X body. unfold parse_response.
    by rewrite strip_fenced, strip_fences_fenced, strip_fences_strip. }
  assert (forall (X : externals) (body : str) (v : pyval),
             json_loads X (strip_fences body) = Some v ->
             parse_response X (fenced body) = v /\ parse_response X body = v)
    as Hvalue.
  { intros X body v Hv. rewrite Hsame.
    assert (parse_response X body = v) as ->; [|done].
    unfold parse_response. by rewrite strip_fences_strip, Hv. }
  split; [done|]. split; [done|]. split; [|by vm_compute].
  intros X Hdec. apply Hvalue. rewrite Hdec. by vm_compute.
Qed.

(** ** Running the stages *)

Lemma log_log a b w : log b (log a w) = log (a ++ b) w.
Proof. unfold log. simpl. by rewrite app_assoc. Qed.

Lemma log_nil w : log [] w = w.
Proof. destruct w. unfold log. simpl. by rewrite app_nil_r. Qed.

Section Runs.

Variable X : externals.

(** What the model stage does, by the answers of the client. *)
Lemma invoke_model_run text w :
  let key := environ w !! lit "GROQ_API_KEY" in
  let prompt := render_prompt text in
  invoke_model X text w =
  match ChatGroq_init X key with
  | Some msg => (Raises (Exception msg), log [ClientInit key] w)
  | None =>
      match chain_invoke X key prompt with
      | inl content =>
          (Returns (parse_response X content),
           log [ClientInit key; Invoke key prompt] w)
      | inr msg =>
          (Raises (Exception msg), log [ClientInit key; Invoke key prompt] w)
      end
  end.
Proof.
  unfold invoke_model. run. simpl.
  destruct (ChatGroq_init X _); simpl; [done|].
  rewrite log_log. by destruct (chain_invoke X _ _).
Qed.

Lemma guard_iff text :
  bool_decide (text = []) || (len (strip text) <? 100)%Z = true
  <-> (len (strip text) < 100)%Z.
Proof.
  rewrite orb_true_iff, Z.ltb_lt, bool_decide_eq_true. split; [|auto].
  intros [-> | H]; [by vm_compute | done].
Qed.

Lemma extract_short text w :
  (len (strip text) < 100)%Z ->
  extract_profile_data X text w
  = (Raises (HTTPException 400 (lit "Insufficient profile text extracted.")),
     w).
Proof.
  intros H. unfold extract_profile_data.
  destruct (_ || _) eqn:E; [done|].
  apply not_true_iff_false in E. destruct E. by apply guard_iff.
Qed.

Lemma extract_long text w :
  (100 <= len (strip text))%Z ->
  extract_profile_data X text w = invoke_model X text w.
Proof.
  intros H. unfold extract_profile_data.
  destruct (_ || _) eqn:E; [|done]. apply guard_iff in E. lia.
Qed.

(** The model stage raises nothing but what the client raises. *)
Lemma invoke_model_raises text w e :
  (invoke_model X text w).1 = Raises e -> exists msg, e = Exception msg.
Proof.
  rewrite invoke_model_run. simpl.
  repeat case_match; simpl; intros [= <-]; eauto.
Qed.

End Runs.

(** ** The extractor *)

(** C1.  When the cleaned response (stripped, fences removed) is not
    parseable as JSON, the post-processing yields the fallback record
    [{"raw": cleaned}]; an extraction whose invocation produced such a
    response returns that record and raises nothing.  With the library's
    decoder, the response [I cannot process this] yields
    [{"raw": "I cannot process this"}]. *)
Theorem C1_fallback_on_unparseable_response (X : externals) :
  (forall content,
      json_loads X (strip_fences (strip content)) = None ->
      parse_response X content
      = PyDict [(lit "raw", PyStr (strip_fences (strip content)))])
  /\ (forall text w content,
        (100 <= len (strip text))%Z ->
        ChatGroq_init X (environ w !! lit "GROQ_API_KEY") = None ->
        chain_invoke X (environ w !! lit "GROQ_API_KEY") (render_prompt text)
        = inl content ->
        json_loads X (strip_fences (strip content)) = None ->
        (extract_profile_data X text w).1
        = Returns (PyDict [(lit "raw", PyStr (strip_fences (strip content)))]))
  /\ (json_loads X = Json.loads ->
      parse_response X (lit "I cannot process this")
      = PyDict [(lit "raw", PyStr (lit "I cannot process this"))]).
Proof.
  assert (forall content,
             json_loads X (strip_fences (strip content)) = None ->
             parse_response X content
             = PyDict [(lit "raw", PyStr (strip_fences (strip content)))])
    as Hraw.
  { intros content H. unfold parse_response. by rewrite H. }
  split; [done|]. split.
  - intros text w content Hlen Hinit Hreply Hbad.
    rewrite extract_long, invoke_model_run by done. simpl.
    rewrite Hinit, Hreply. simpl. by rewrite Hraw.
  - intros Hdec. rewrite Hraw; [done|]. rewrite Hdec. by vm_compute.
Qed.

(** C2.  The extractor raises the bad-input error (status 400) exactly
    when the stripped text is shorter than 100 characters, and then makes
    no call at all; a text of 50 characters raises it; a text whose
    stripped form has 150 characters goes on to build the client and to
    invoke the model. *)
Theorem C2_input_guard (X : externals) (text : str) (w : world) :
  let r := extract_profile_data X text w in
  let key := environ w !! lit "GROQ_API_KEY" in
  (r.1 = Raises (HTTPException 400 (lit "Insufficient profile text extracted."))
   <-> (len (strip text) < 100)%Z)
  /\ (status_code_of r.1 = 400%Z <-> (len (strip text) < 100)%Z)
  /\ ((len (strip text) < 100)%Z -> r.2 = w)
  /\ (len text = 50%Z ->
      r.1 = Raises (HTTPException 400 (lit "Insufficient profile text extracted.")))
  /\ (len (strip text) = 150%Z ->
      r = invoke_model X text w
      /\ (ChatGroq_init X key = None ->
          trace r.2
          = trace w ++ [ClientInit key; Invoke key (render_prompt text)])).
Proof.
  intros r key. subst r.
  destruct (Z.lt_ge_cases (len (strip text)) 100) as [Hlt | Hge].
  - rewrite extract_short by done. simpl.
    split; [done|]. split; [done|]. split; [done|]. split; [done|]. lia.
  - rewrite extract_long by done.
    pose proof (invoke_model_raises X text w) as Hraise.
    split; [|split; [|split; [|split]]].
    + split; [|lia]. intros H. apply Hraise in H as [msg H]. discriminate.
    + split; [|lia].
      destruct (invoke_model X text w).1 as [v | [st d | msg]] eqn:E; simpl;
        intros H; try discriminate.
      destruct (Hraise _ eq_refl) as [msg Hmsg]. discriminate.
    + lia.
    + intros H. pose proof (strip_length text) as Hs. unfold len in *. lia.
    + intros _. split; [done|]. intros Hinit.
      rewrite invoke_model_run. simpl. fold key.
      rewrite Hinit. by destruct (chain_invoke X key _).
Qed.

(** ** The renderer *)

Section Renderer.

Variable X : externals.

Lemma fetch_run profile_url w :
  fetch_profile_html X profile_url w =
  match chrome_launch X with
  | Some msg =>
      (Raises (HTTPException 500 (lit "Selenium init failed: " ++ msg)), w)
  | None =>
      let d := next_driver w in
      (match driver_quit X with
       | None => (browse X d profile_url).1
       | Some m => Raises (Exception m)
       end,
       World (S d) (({[ d ]} ∪ live w) ∖ {[ d ]}) (environ w)
             (browse_files X profile_url (files w))
             (trace w ++ Launch d :: (browse X d profile_url).2 ++ [Quit d]))
  end.
Proof.
  unfold fetch_profile_html, init_driver, webdriver_Chrome, quit, browse,
    browse_files.
  run. unfold log, with_files. simpl.
  destruct (chrome_launch X); [done|]. simpl.
  destruct (driver_get X _); simpl.
  { rewrite <- !app_assoc. by destruct (driver_quit X). }
  destruct (driver_save_screenshot X _); simpl.
  { rewrite <- !app_assoc. by destruct (driver_quit X). }
  destruct (driver_page_source X _); simpl;
    rewrite <- !app_assoc; by destruct (driver_quit X).
Qed.

End Renderer.

(** ** The sink *)

Section Sink.

Variable X : externals.

Lemma write_json_run path data w :
  let text := json_dumps X data in
  write_json X path data w =
  match open_w X path with
  | Some m => (Raises (Exception m), log [OpenW path] w)
  | None =>
      match file_write X path text with
      | None =>
          (Returns tt,
           World (next_driver w) (live w) (environ w)
                 (<[path := text]> (files w))
                 (trace w ++ [OpenW path; Write path text]))
      | Some (k, m) =>
          (Raises (Exception m),
           World (next_driver w) (live w) (environ w)
                 (<[path := take k text]> (files w))
                 (trace w ++ [OpenW path; Write path (take k text)]))
      end
  end.
Proof.
  unfold write_json. run. unfold log, with_files. simpl.
  destruct (open_w X path); [done|]. simpl.
  destruct (file_write X path _) as [[k m]|]; run; simpl;
    by rewrite insert_insert_eq, <- app_assoc.
Qed.

Lemma save_json_run data filename w :
  let path := path_join (getcwd X) filename in
  save_json X data filename w =
  match files w !! path with
  | Some _ =>
      match os_remove X path with
      | Some m => (Raises (Exception m), log [Remove path] w)
      | None =>
          match write_json X path data
                  (with_files (delete path) (log [Remove path] w)) with
          | (Returns _, w') => (Returns path, w')
          | (Raises e, w') => (Raises e, w')
          end
      end
  | None =>
      match write_json X path data w with
      | (Returns _, w') => (Returns path, w')
      | (Raises e, w') => (Raises e, w')
      end
  end.
Proof.
  unfold save_json. run. simpl.
  destruct (files w !! _) eqn:E; simpl.
  - destruct (os_remove X _); run; simpl; [done|].
    by destruct (write_json X _ data _) as [[|] ?].
  - by destruct (write_json X _ data _) as [[|] ?].
Qed.

(** The sink raises nothing but what the file system raises, and leaves
    the browser sessions and the environment alone. *)
Lemma save_json_frame data filename w :
  exists evs fs,
    (save_json X data filename w).2
    = World (next_driver w) (live w) (environ w) fs (trace w ++ evs)
    /\ Forall (fun e => driver_of e = None) evs
    /\ forall e, (save_json X data filename w).1 = Raises e ->
                 exists msg, e = Exception msg.
Proof.
  rewrite save_json_run. cbv zeta.
  destruct (files w !! _).
  - destruct (os_remove X _).
    + eexists _, _. split; [done|]. split; [by repeat constructor|].
      intros e [= <-]. eauto.
    + rewrite write_json_run. cbv zeta.
      destruct (open_w X _); [|destruct (file_write X _ _) as [[k m]|]];
        unfold log, with_files; simpl; rewrite <- ?app_assoc;
        (eexists _, _; split; [done|]; split; [by repeat constructor|]);
        intros e [= <-]; eauto.
  - rewrite write_json_run. cbv zeta.
    destruct (open_w X _); [|destruct (file_write X _ _) as [[k m]|]];
      unfold log; simpl;
      (eexists _, _; split; [done|]; split; [by repeat constructor|]);
      intros e [= <-]; eauto.
Qed.

End Sink.

(** C10.  When a file already exists at the target path, [save_json]
    deletes it before it opens or writes anything; if the deletion fails
    nothing is written; if the deletion succeeds and the writing then
    fails, the old content is gone: the path is absent when the opening
    failed, and holds only what was written of the new text when the
    write failed. *)
Theorem C10_delete_before_write
    (X : externals) (data : pyval) (filename : str) (w : world) (old : str) :
  let path := path_join (getcwd X) filename in
  let text := json_dumps X data in
  let r := save_json X data filename w in
  files w !! path = Some old ->
  (exists evs, trace r.2 = trace w ++ Remove path :: evs
               /\ Remove path ∉ evs)
  /\ (forall m, os_remove X path = Some m ->
        r = (Raises (Exception m), log [Remove path] w))
  /\ (os_remove X path = None ->
      (forall m, open_w X path = Some m ->
         r.1 = Raises (Exception m)
         /\ files r.2 = delete path (files w)
         /\ files r.2 !! path = None
         /\ trace r.2 = trace w ++ [Remove path; OpenW path])
      /\ (open_w X path = None ->
          (forall k m, file_write X path text = Some (k, m) ->
             r.1 = Raises (Exception m)
             /\ files r.2 = <[path := take k text]> (delete path (files w))
             /\ trace r.2
                = trace w ++ [Remove path; OpenW path;
                              Write path (take k text)])
          /\ (file_write X path text = None ->
              r.1 = Returns path
              /\ files r.2 = <[path := text]> (delete path (files w))
              /\ trace r.2
                 = trace w ++ [Remove path; OpenW path; Write path text]))).
Proof.
  intros path text r Hold. subst r. rewrite save_json_run. cbv zeta.
  fold path. rewrite Hold.
  destruct (os_remove X path) as [m0|] eqn:Hrm.
  - split; [exists []; split; [done | apply not_elem_of_nil]|].
    split; [by intros m [= <-]|]. done.
  - rewrite write_json_run. cbv zeta. fold text.
    destruct (open_w X path) as [m1|] eqn:Hop.
    + split.
      { exists [OpenW path]. unfold log. simpl. rewrite <- app_assoc.
        split; [done | not_listed]. }
      split; [done|]. intros _. split; [|done].
      intros m [= <-]. unfold log, with_files. simpl.
      rewrite lookup_delete_eq, <- app_assoc. done.
    + destruct (file_write X path text) as [[k m2]|] eqn:Hwr.
      * split.
        { eexists. unfold log, with_files. simpl. rewrite <- app_assoc.
          split; [done | not_listed]. }
        split; [done|]. intros _. split; [done|]. intros _.
        split; [|done]. intros k' m' [= <- <-].
        unfold log, with_files. simpl. by rewrite <- app_assoc.
      * split.
        { eexists. unfold log, with_files. simpl. rewrite <- app_assoc.
          split; [done | not_listed]. }
        split; [done|]. intros _. split; [done|]. intros _.
        split; [done|]. intros _.
        unfold log, with_files. simpl. by rewrite <- app_assoc.
Qed.

(** ** The orchestrator *)

Section Orchestrator.

Variable X : externals.

Lemma scrape_run username w :
  let profile_url := resolve_url username in
  scrape_profile X username w =
  match fetch_profile_html X profile_url w with
  | (Raises e, w1) => (Raises e, w1)
  | (Returns html, w1) =>
      match extract_profile_data X (clean_html X html) w1 with
      | (Raises e, w2) => (Raises e, w2)
      | (Returns extracted, w2) =>
          match save_json X extracted (lit "profile_data.json") w2 with
          | (Raises e, w3) => (Raises e, w3)
          | (Returns json_path, w3) =>
              (Returns (Response true profile_url (lit "profile_ss.png")
                                 json_path extracted), w3)
          end
      end
  end.
Proof.
  unfold scrape_profile. run. cbv zeta.
  destruct (fetch_profile_html X _ w) as [[html|e] w1]; [|done].
  destruct (extract_profile_data X _ w1) as [[v|e] w2]; [|done].
  by destruct (save_json X v _ w2) as [[path|e] w3].
Qed.

(** The extractor leaves the browser sessions and the files alone, and
    raises either the bad-input error or what the client raises. *)
Lemma extract_frame text w :
  exists evs,
    (extract_profile_data X text w).2 = log evs w
    /\ Forall (fun e => driver_of e = None) evs
    /\ forall e, (extract_profile_data X text w).1 = Raises e ->
         (e = HTTPException 400 (lit "Insufficient profile text extracted.")
          /\ (len (strip text) < 100)%Z)
         \/ exists msg, e = Exception msg.
Proof.
  destruct (Z.lt_ge_cases (len (strip text)) 100) as [Hlt | Hge].
  - rewrite extract_short by done. exists []. rewrite log_nil.
    split; [done|]. split; [constructor|]. intros e [= <-]. by left.
  - rewrite extract_long by done.
    pose proof (invoke_model_raises X text w) as Hraise.
    rewrite invoke_model_run in *. cbv zeta in *.
    destruct (ChatGroq_init X _); [|destruct (chain_invoke X _ _)];
      (eexists; split; [done|]; split; [by repeat constructor|]);
      intros e He; right; by apply Hraise.
Qed.

(** Whatever the later stages do happens after the session is over. *)
Lemma scrape_after_fetch username w :
  let f := fetch_profile_html X (resolve_url username) w in
  let r := scrape_profile X username w in
  exists evs fs,
    r.2 = World (next_driver f.2) (live f.2) (environ f.2) fs
                (trace f.2 ++ evs)
    /\ Forall (fun e => driver_of e = None) evs
    /\ (forall e, f.1 = Raises e -> r.1 = Raises e /\ evs = []).
Proof.
  cbv zeta. rewrite scrape_run. cbv zeta.
  destruct (fetch_profile_html X _ w) as [[html|e] w1]; simpl.
  - destruct (extract_frame (clean_html X html) w1) as [evs [E [Hevs _]]].
    destruct (extract_profile_data X _ w1) as [[v|e] w2]; simpl in E.
    + destruct (save_json_frame X v (lit "profile_data.json") w2)
        as [evs' [fs [E' [Hevs' _]]]].
      destruct (save_json X v _ w2) as [[path|e] w3]; simpl in E'; subst;
        exists (evs ++ evs'), fs; unfold log; simpl;
        rewrite <- app_assoc;
        (split; [done|]; split; [by apply Forall_app|]); intros ? [=].
    + subst. exists evs, (files w1). split; [done|]. split; [done|].
      intros ? [=].
  - exists [], (files w1). rewrite app_nil_r. split; [by destruct w1|].
    split; [constructor|]. by intros e' [= <-].
Qed.

End Orchestrator.

(** C3.  An identifier that contains the host [naukri.com] is used as
    the profile URL as it is; any other identifier is appended to the
    profile URL prefix.  The orchestrator navigates to that URL first and
    reports it in its response.  [jdoe123] resolves to
    [https://www.naukri.com/code360/profile/jdoe123], and that URL
    resolves to itself. *)
Theorem C3_url_resolution (username : str) :
  ((exists a b, username = a ++ lit "naukri.com" ++ b) ->
   resolve_url username = username)
  /\ (~ (exists a b, username = a ++ lit "naukri.com" ++ b) ->
      resolve_url username
      = lit "https://www.naukri.com/code360/profile/" ++ username)
  /\ resolve_url (lit "jdoe123")
     = lit "https://www.naukri.com/code360/profile/jdoe123"
  /\ resolve_url (lit "https://www.naukri.com/code360/profile/jdoe123")
     = lit "https://www.naukri.com/code360/profile/jdoe123"
  /\ (forall X w, chrome_launch X = None ->
        exists evs,
          trace (scrape_profile X username w).2
          = trace w ++ Launch (next_driver w)
                    :: Get (next_driver w) (resolve_url username) :: evs)
  /\ (forall X w r w',
        scrape_profile X username w = (Returns r, w') ->
        url r = resolve_url username).
Proof.
  split; [|split]; [| |split; [|split; [|split]]].
  - intros H. apply contains_spec in H. unfold resolve_url. by rewrite H.
  - intros H. unfold resolve_url.
    destruct (contains _ username) eqn:E; [|done].
    apply contains_spec in E. done.
  - by vm_compute.
  - by vm_compute.
  - intros X w Hlaunch.
    destruct (scrape_after_fetch X username w) as [evs [fs [E _]]].
    rewrite E. rewrite fetch_run, Hlaunch. cbv zeta. simpl.
    assert (exists tl, (browse X (next_driver w) (resolve_url username)).2
                       = Get (next_driver w) (resolve_url username) :: tl)
      as [tl ->].
    { unfold browse. repeat case_match; simpl; eauto. }
    eexists. rewrite <- !app_assoc. simpl. reflexivity.
  - intros X w r w'. rewrite scrape_run. cbv zeta.
    repeat case_match; intros [= <- _]; done.
Qed.

(** C7, as the code has it.  When the sink fails after a successful
    extraction, its exception leaves the orchestrator as it is: the
    request fails with status 500 and no response, hence no record, is
    returned. *)
Theorem C7_sink_failure_propagates
    (X : externals) (username html : str) (extracted : pyval)
    (w w1 w2 w3 : world) (e : exn) :
  fetch_profile_html X (resolve_url username) w = (Returns html, w1) ->
  extract_profile_data X (clean_html X html) w1 = (Returns extracted, w2) ->
  save_json X extracted (lit "profile_data.json") w2 = (Raises e, w3) ->
  scrape_profile X username w = (Raises e, w3)
  /\ status_code_of (scrape_profile X username w).1 = 500%Z
  /\ forall r, (scrape_profile X username w).1 <> Returns r.
Proof.
  intros Hf He Hs. rewrite scrape_run. cbv zeta. rewrite Hf, He, Hs.
  split; [done|]. split; [|done]. simpl.
  destruct (save_json_frame X extracted (lit "profile_data.json") w2)
    as [_ [_ [_ [_ H]]]].
  rewrite Hs in H. destruct (H e eq_refl) as [msg ->]. done.
Qed.

Section Credential.

Variable X : externals.

(** The renderer neither changes the environment nor calls the model. *)
Lemma fetch_keeps_environ profile_url w :
  environ (fetch_profile_html X profile_url w).2 = environ w.
Proof. rewrite fetch_run. by destruct (chrome_launch X). Qed.

Lemma fetch_invocations profile_url w :
  invocations (trace (fetch_profile_html X profile_url w).2)
  = invocations (trace w).
Proof.
  rewrite fetch_run. destruct (chrome_launch X); [done|]. cbv zeta.
  cbn [snd trace]. unfold invocations, browse.
  rewrite flat_map_app.
  repeat case_match; cbn [fst snd flat_map app]; by rewrite app_nil_r.
Qed.

(** With the credential absent and a client that refuses a null key, the
    extractor never returns and never invokes the model. *)
Lemma extract_without_credential text w msg :
  environ w !! lit "GROQ_API_KEY" = None ->
  ChatGroq_init X None = Some msg ->
  invocations (trace (extract_profile_data X text w).2)
  = invocations (trace w)
  /\ (forall v, (extract_profile_data X text w).1 <> Returns v)
  /\ ((100 <= len (strip text))%Z ->
      extract_profile_data X text w
      = (Raises (Exception msg), log [ClientInit None] w)).
Proof.
  intros Hkey Hinit.
  destruct (Z.lt_ge_cases (len (strip text)) 100) as [Hlt | Hge].
  - rewrite extract_short by done. split; [done|]. split; [done | lia].
  - rewrite extract_long, invoke_model_run by done. cbv zeta.
    rewrite Hkey, Hinit. unfold invocations, log. cbn [fst snd trace].
    rewrite flat_map_app. cbn [flat_map app]. by rewrite app_nil_r.
Qed.

End Credential.

(** C8.  The client is built from the environment on each use, and the
    library's constructor raises when it is given no key.  With the
    credential absent, the first extraction that reaches the client
    therefore ends with the constructor's exception before any model
    invocation: no extraction and no request returns a result, the model
    is never invoked, and a request whose page passes the length guard
    ends with that exception and status 500. *)
Theorem C8_absent_credential_raises_on_first_use
    (X : externals) (w : world) (msg : str) :
  environ w !! lit "GROQ_API_KEY" = None ->
  ChatGroq_init X None = Some msg ->
  (forall text,
     let r := extract_profile_data X text w in
     invocations (trace r.2) = invocations (trace w)
     /\ (forall v, r.1 <> Returns v)
     /\ ((100 <= len (strip text))%Z ->
         r = (Raises (Exception msg), log [ClientInit None] w)))
  /\ (forall username,
        let s := scrape_profile X username w in
        invocations (trace s.2) = invocations (trace w)
        /\ (forall resp, s.1 <> Returns resp)
        /\ (forall html,
              (fetch_profile_html X (resolve_url username) w).1
              = Returns html ->
              (100 <= len (strip (clean_html X html)))%Z ->
              s.1 = Raises (Exception msg)
              /\ status_code_of s.1 = 500%Z)).
Proof.
  intros Hkey Hinit. split.
  - intros text. by apply extract_without_credential.
  - intros username. cbv zeta. rewrite scrape_run. cbv zeta.
    pose proof (fetch_keeps_environ X (resolve_url username) w) as Henv.
    pose proof (fetch_invocations X (resolve_url username) w) as Hinv.
    destruct (fetch_profile_html X _ w) as [[html|e] w1]; cbn [fst snd] in *.
    + rewrite <- Henv in Hkey.
      destruct (extract_without_credential X (clean_html X html) w1 msg
                  Hkey Hinit) as [Hx [Hnone Hlong]].
      destruct (extract_profile_data X _ w1) as [[v|e] w2];
        cbn [fst snd] in *; [by destruct (Hnone v)|].
      split; [congruence|]. split; [done|].
      intros h [= <-] Hlen. by injection (Hlong Hlen) as -> _.
    + split; [done|]. split; [done|]. by intros h [=].
Qed.

Section Classification.

Variable X : externals.

(** What the try block can raise comes from the driver. *)
Lemma browse_raises d profile_url e :
  (browse X d profile_url).1 = Raises e -> exists msg, e = Exception msg.
Proof. unfold browse. repeat case_match; simpl; intros [= <-]; eauto. Qed.

Lemma browse_events d profile_url :
  Forall (fun e => (driver_of e = Some d \/ exists n, e = Sleep n)
                   /\ e <> Quit d /\ e <> Launch d)
         (browse X d profile_url).2.
Proof.
  unfold browse.
  repeat case_match; simpl; repeat constructor; eauto; discriminate.
Qed.

Lemma fetch_raises profile_url w e :
  (fetch_profile_html X profile_url w).1 = Raises e ->
  match chrome_launch X with
  | Some msg => e = HTTPException 500 (lit "Selenium init failed: " ++ msg)
  | None => exists msg, e = Exception msg
  end.
Proof.
  rewrite fetch_run.
  destruct (chrome_launch X); cbv zeta; simpl; [by intros [= <-]|].
  destruct (driver_quit X); [intros [= <-]; eauto|].
  apply browse_raises.
Qed.

End Classification.

(** C6, as the code has it.  A renderer failure leaves the orchestrator
    with status 500: a launch failure as the [HTTPException] that
    [init_driver] raises with status 500, any later failure of the driver
    as the driver's own exception.  Status 400 is kept for text that is
    too short, so a renderer failure is told apart from bad input; every
    other failure of the request carries status 500 as well. *)
Theorem C6_renderer_failure_has_status_500
    (X : externals) (username : str) (w : world) :
  let f := fetch_profile_html X (resolve_url username) w in
  let r := scrape_profile X username w in
  (forall e, f.1 = Raises e ->
     r.1 = Raises e
     /\ status_code_of r.1 = 500%Z
     /\ (forall msg, chrome_launch X = Some msg ->
           e = HTTPException 500 (lit "Selenium init failed: " ++ msg))
     /\ (chrome_launch X = None -> exists msg, e = Exception msg))
  /\ (forall e, r.1 = Raises e ->
        status_code_of r.1 = 400%Z \/ status_code_of r.1 = 500%Z)
  /\ (status_code_of r.1 = 400%Z
      <-> exists html, f.1 = Returns html
                       /\ (len (strip (clean_html X html)) < 100)%Z).
Proof.
  cbv zeta.
  pose proof (fetch_raises X (resolve_url username) w) as Hf.
  rewrite scrape_run. cbv zeta.
  destruct (fetch_profile_html X _ w) as [[html|e] w1]; simpl in *.
  - split; [by intros e [=]|].
    pose proof (extract_frame X (clean_html X html) w1) as [_ [_ [_ He]]].
    destruct (Z.lt_ge_cases (len (strip (clean_html X html))) 100)
      as [Hlt | Hge].
    + rewrite extract_short by done. simpl.
      split; [by left|]. split; [eauto | done].
    + rewrite extract_long in * by done.
      destruct (invoke_model X _ w1) as [[v|e] w2]; simpl in *.
      * pose proof (save_json_frame X v (lit "profile_data.json") w2)
          as [_ [_ [_ [_ Hs]]]].
        destruct (save_json X v _ w2) as [[path|e] w3]; simpl in *.
        -- split; [by intros e [=]|]. split; [done|].
           intros [h [[= <-] H]]. lia.
        -- destruct (Hs e eq_refl) as [msg ->]. simpl.
           split; [by right|]. split; [done|].
           intros [h [[= <-] H]]. lia.
      * destruct (He e eq_refl) as [[_ H] | [msg ->]]; [lia|]. simpl.
        split; [by right|]. split; [done|].
        intros [h [[= <-] H]]. lia.
  - specialize (Hf e eq_refl).
    destruct (chrome_launch X) as [m|]; [subst e | destruct Hf as [msg ->]];
      simpl.
    + split.
      { intros e' [= <-]. split; [done|]. split; [done|].
        split; [by intros msg [= <-] | done]. }
      split; [intros _ _; by right|].
      split; [done|]. by intros [h [[=] _]].
    + split.
      { intros e' [= <-]. split; [done|]. split; [done|].
        split; [done | eauto]. }
      split; [intros _ _; by right|].
      split; [done|]. by intros [h [[=] _]].
Qed.

(** C9.  Every request launches a browser session of its own as its
    first act and has quit it by the time it ends, on every path: the
    events of the session lie between its launch and its quit, nothing
    later touches a browser, and the session is not live in the final
    world.  When the launch itself fails there is no session to release.
    In a well-formed world the session is a new one and the sessions
    that are live after the request are those that were live before. *)
Theorem C9_renderer_released (X : externals) (username : str) (w : world) :
  let d := next_driver w in
  let w' := (scrape_profile X username w).2 in
  (match chrome_launch X with
  | Some _ =>
      next_driver w' = d /\ live w' = live w /\ trace w' = trace w
  | None =>
      next_driver w' = S d
      /\ live w' = ({[ d ]} ∪ live w) ∖ {[ d ]}
      /\ (d ∉ live w')
      /\ exists mid rest,
           trace w' = trace w ++ Launch d :: mid ++ Quit d :: rest
           /\ Forall (fun e => (driver_of e = Some d \/ exists n, e = Sleep n)
                               /\ e <> Quit d /\ e <> Launch d) mid
           /\ Forall (fun e => driver_of e = None) rest
  end)
  /\ (sessions_ok w -> sessions_ok w' /\ (d ∉ live w) /\ live w' = live w).
Proof.
  cbv zeta.
  destruct (scrape_after_fetch X username w) as [evs [fs [E [Hevs Hfail]]]].
  rewrite E. clear E. rewrite fetch_run in *.
  destruct (chrome_launch X) as [msg|]; cbv zeta in *;
    cbn [fst snd next_driver live trace environ files] in *.
  - destruct (Hfail _ eq_refl) as [_ ->]. rewrite app_nil_r.
    split; [done|]. intros Hok. split; [exact Hok|]. split; [|done].
    intros Hd. apply Hok in Hd. lia.
  - split.
    + split; [done|]. split; [done|].
      split; [intros [_ H]%elem_of_difference; by apply H, elem_of_singleton|].
      exists (browse X (next_driver w) (resolve_url username)).2, evs.
      split; [rewrite <- app_assoc; simpl; by rewrite <- app_assoc|].
      split; [apply browse_events | done].
    + intros Hok.
      assert (next_driver w ∉ live w) as Hfresh
        by (intros Hd; apply Hok in Hd; lia).
      assert (({[next_driver w]} ∪ live w) ∖ {[next_driver w]} = live w)
        as ->.
      { apply set_eq. intros x.
        rewrite elem_of_difference, elem_of_union, elem_of_singleton.
        split; [by intros [[-> | ?] ?]|].
        intros Hx. split; [by right | by intros ->]. }
      split; [|done]. intros x Hx. apply Hok in Hx. simpl. lia.
Qed.

(** ** The normalizer *)

Section Normalizer.

Import Bs4.

Lemma node_induction (P : node -> Prop) :
  (forall n cs, Forall P cs -> P (Tag n cs)) ->
  (forall c s, P (Text c s)) ->
  forall t, P t.
Proof.
  intros Htag Htext. fix IH 1. intros [n cs | c s]; [|apply Htext].
  apply Htag. induction cs as [|t cs IHcs]; constructor; [apply IH | done].
Qed.


Lemma flat_map_flat_map {A B C} (f : A -> list B) (g : B -> list C) l :
  flat_map g (flat_map f l) = flat_map (fun x => flat_map g (f x)) l.
Proof.
  induction l as [|x l IH]; simpl; [done|]. by rewrite flat_map_app, IH.
Qed.





End Normalizer.


(** ** Worked instances *)

Section Instances.

Import Scenario.

(** The sample page passes the guard. *)
Lemma profile_page_text_length :
  len (strip (clean_html (nominal [] []) profile_page)) = 151%Z.
Proof. by vm_compute. Qed.

(** The model answers with prose: the record holds the prose. *)
Lemma C1_fallback_witness :
  let X := nominal profile_page (lit "I cannot process this") in
  (extract_profile_data X (clean_html X profile_page) fresh_world).1
  = Returns (PyDict [(lit "raw", PyStr (lit "I cannot process this"))]).
Proof.
  intros X.
  exact (proj1 (proj2 (C1_fallback_on_unparseable_response X))
           (clean_html X profile_page) fresh_world
           (lit "I cannot process this")
           ltac:(by vm_compute) ltac:(by vm_compute)
           ltac:(by vm_compute) ltac:(by vm_compute)).
Defined.

(** Fifty characters are refused; a hundred and fifty reach the model. *)
Lemma C2_guard_witness :
  let X := nominal [] profile_reply in
  let key := Some (lit "gsk_test") in
  (extract_profile_data X (repeat 120 50) fresh_world).1
  = Raises (HTTPException 400 (lit "Insufficient profile text extracted."))
  /\ trace (extract_profile_data X (repeat 120 150) fresh_world).2
     = [ClientInit key; Invoke key (render_prompt (repeat 120 150))].
Proof.
  intros X key. split.
  - exact (proj1 (proj2 (proj2 (proj2
             (C2_input_guard X (repeat 120 50) fresh_world))))
             ltac:(by vm_compute)).
  - exact (proj2 (proj2 (proj2 (proj2 (proj2
             (C2_input_guard X (repeat 120 150) fresh_world))))
             ltac:(by vm_compute)) ltac:(by vm_compute)).
Defined.

(** The fenced reply parses to the record. *)
Lemma C4_fence_witness :
  parse_response (nominal [] []) (fenced (litq "{'name':'A'}"))
  = PyDict [(lit "name", PyStr (lit "A"))].
Proof.
  exact (proj1 (proj1 (proj2 (proj2 C4_fence_stripping))
                  (nominal [] []) eq_refl)).
Defined.

Lemma C3_full_url_witness :
  resolve_url (lit "https://www.naukri.com/code360/profile/jdoe123")
  = lit "https://www.naukri.com/code360/profile/jdoe123".
Proof.
  apply (proj1 (C3_url_resolution
                  (lit "https://www.naukri.com/code360/profile/jdoe123"))).
  exists (lit "https://www."), (lit "/code360/profile/jdoe123").
  by vm_compute.
Defined.


Lemma C6_launch_failure_witness :
  let X := with_launch (Some (lit "chromedriver not found"))
                       (nominal profile_page profile_reply) in
  let r := scrape_profile X (lit "jdoe123") fresh_world in
  r.1 = Raises (HTTPException 500
                  (lit "Selenium init failed: chromedriver not found"))
  /\ status_code_of r.1 = 500%Z.
Proof.
  intros X r.
  destruct (proj1 (C6_renderer_failure_has_status_500 X (lit "jdoe123")
                     fresh_world)
              (HTTPException 500
                 (lit "Selenium init failed: chromedriver not found"))
              ltac:(by vm_compute)) as [H1 [H2 _]].
  split; [exact H1 | exact H2].
Defined.

Lemma C7_sink_failure_witness :
  let X := with_open (Some (lit "Permission denied"))
                     (nominal profile_page profile_reply) in
  let u := lit "jdoe123" in
  let f := fetch_profile_html X (resolve_url u) fresh_world in
  let x := extract_profile_data X (clean_html X profile_page) f.2 in
  let record := parse_response X profile_reply in
  let s := save_json X record (lit "profile_data.json") x.2 in
  scrape_profile X u fresh_world
  = (Raises (Exception (lit "Permission denied")), s.2).
Proof.
  intros X u f x record s.
  exact (proj1 (C7_sink_failure_propagates X u profile_page record
                  fresh_world f.2 x.2 s.2
                  (Exception (lit "Permission denied"))
                  ltac:(by vm_compute) ltac:(by vm_compute)
                  ltac:(by vm_compute))).
Defined.

Lemma C8_strict_client_witness :
  let X := nominal profile_page profile_reply in
  let s := scrape_profile X (lit "jdoe123") keyless_world in
  s.1 = Raises (Exception (lit "Did not find groq_api_key"))
  /\ status_code_of s.1 = 500%Z.
Proof.
  intros X s.
  exact (proj2 (proj2 (proj2
           (C8_absent_credential_raises_on_first_use X keyless_world
              (lit "Did not find groq_api_key")
              ltac:(by vm_compute) ltac:(by vm_compute))
           (lit "jdoe123")))
           profile_page ltac:(by vm_compute) ltac:(by vm_compute)).
Defined.

Lemma C9_sessions_witness :
  let X := nominal profile_page profile_reply in
  let w' := (scrape_profile X (lit "jdoe123") fresh_world).2 in
  sessions_ok w' /\ (0%nat ∉ live fresh_world) /\ live w' = live fresh_world.
Proof.
  intros X w'.
  apply (proj2 (C9_renderer_released X (lit "jdoe123") fresh_world)).
  intros d Hd. by apply elem_of_empty in Hd.
Defined.

Lemma C10_lost_record_witness :
  let X := with_open (Some (lit "Permission denied")) (nominal [] []) in
  let r := save_json X (PyDict [(lit "name", PyStr (lit "new"))])
                     (lit "profile_data.json") used_world in
  r.1 = Raises (Exception (lit "Permission denied"))
  /\ files r.2 !! lit "/srv/app/profile_data.json" = None.
Proof.
  intros X r.
  destruct (proj1 (proj2 (proj2
              (C10_delete_before_write X
                 (PyDict [(lit "name", PyStr (lit "new"))])
                 (lit "profile_data.json") used_world
                 (litq "{'name': 'old'}") ltac:(by vm_compute)))
              ltac:(by vm_compute))
              (lit "Permission denied") ltac:(by vm_compute))
    as [H1 [_ [H2 _]]].
  split; [exact H1 | exact H2].
Defined.

End Instances.

(** ** Where the code departs from the specification *)

Section Departures.

Import Scenario.


(** C6 fails as stated: a browser that cannot be launched, a page that
    cannot be reached, a model that cannot be called and a sink that
    cannot be opened end the request with the same status, 500, and not
    with 503. *)
Lemma C6_counterexample :
  let ok := nominal profile_page profile_reply in
  let no_browser :=
    scrape_profile (with_launch (Some (lit "chromedriver not found")) ok)
                   (lit "jdoe123") fresh_world in
  let no_page :=
    scrape_profile (with_get (Some (lit "net::ERR_NAME_NOT_RESOLVED")) ok)
                   (lit "jdoe123") fresh_world in
  let no_model :=
    scrape_profile (with_invoke (inr (lit "rate limit exceeded")) ok)
                   (lit "jdoe123") fresh_world in
  let no_sink :=
    scrape_profile (with_open (Some (lit "Permission denied")) ok)
                   (lit "jdoe123") fresh_world in
  status_code_of no_browser.1 = 500%Z
  /\ status_code_of no_page.1 = 500%Z
  /\ status_code_of no_model.1 = 500%Z
  /\ status_code_of no_sink.1 = 500%Z
  /\ status_code_of no_browser.1 <> 503%Z
  /\ status_code_of no_browser.1 = status_code_of no_sink.1.
Proof. by vm_compute. Qed.

(** C7 fails as stated: the extraction succeeds, the sink cannot open its
    file, and the request ends with the sink's exception instead of a
    response that carries the record. *)
Lemma C7_counterexample :
  let X := with_open (Some (lit "Permission denied"))
                     (nominal profile_page profile_reply) in
  let f := fetch_profile_html X (resolve_url (lit "jdoe123")) fresh_world in
  let x := extract_profile_data X (clean_html X profile_page) f.2 in
  let r := scrape_profile X (lit "jdoe123") fresh_world in
  f.1 = Returns profile_page
  /\ x.1 = Returns (parse_response X profile_reply)
  /\ r.1 = Raises (Exception (lit "Permission denied"))
  /\ forall resp, r.1 <> Returns resp.
Proof. by vm_compute. Qed.

End Departures.

(** ** The pipeline end to end *)

Section EndToEnd.

Import Scenario.

Example strip_ex : strip (lit "  ab c 	") = lit "ab c".
Proof. reflexivity. Qed.

Example replace_ex :
  replace (lit "ab") (lit "X") (lit "aababcab") = lit "aXXcX"
  /\ replace (lit "aa") (lit "b") (lit "aaaaa") = lit "bba"
  /\ replace [] (lit "-") (lit "ab") = lit "-a-b-".
Proof. by vm_compute. Qed.

Example loads_ex :
  Json.loads (litq "{'a': [1, -2.5e3, true, null], 'a': 'x'}")
  = Some (PyDict [(lit "a", PyStr (lit "x"))])
  /\ Json.loads (litq "[1,]") = None
  /\ Json.loads (litq "01") = None
  /\ Json.loads (lit "Infinity") = Some (PyFloat (lit "Infinity")).
Proof. by vm_compute. Qed.

(** The record of the response equals the parsed reply, and the sink
    receives exactly that record. *)
Example end_to_end :
  let X := nominal profile_page profile_reply in
  let r := scrape_profile X (lit "jdoe123") fresh_world in
  let record :=
    PyDict [(lit "name", PyStr (lit "Jane Doe"));
            (lit "headline", PyStr (lit "Senior Engineer"));
            (lit "about", PyStr []); (lit "skills", PyList []);
            (lit "experience", PyList []); (lit "education", PyList [])] in
  r.1 = Returns (Response true
                   (lit "https://www.naukri.com/code360/profile/jdoe123")
                   (lit "profile_ss.png")
                   (lit "/srv/app/profile_data.json") record)
  /\ files r.2 !! lit "/srv/app/profile_data.json" = Some (Json.dumps record)
  /\ Json.loads (Json.dumps record) = Some record
  /\ live r.2 = ∅.
Proof. by vm_compute. Qed.

(** A write that fails after ten characters leaves those ten characters
    where the earlier record was. *)
Example partial_write_ex :
  let X := with_write (Some (10%nat, lit "No space left on device"))
                      (nominal [] []) in
  let r := save_json X (PyDict [(lit "name", PyStr (lit "new"))])
                     (lit "profile_data.json") used_world in
  r.1 = Raises (Exception (lit "No space left on device"))
  /\ files used_world !! lit "/srv/app/profile_data.json"
     = Some (litq "{'name': 'old'}")
  /\ files r.2 !! lit "/srv/app/profile_data.json"
     = Some ([123; nl] ++ lit "    " ++ litq "'nam").
Proof. by vm_compute. Qed.

(** Character references are decoded into the text around them. *)
Example parse_ex :
  Html.parse (lit "<p>a &#60; b &#x3e; c &amp; d<br>e</p><!-- x -->")
  = [Tag (lit "p") [Text NavigableString (lit "a < b > c & d");
                    Tag (lit "br") [];
                    Text NavigableString (lit "e")];
     Text Comment (lit " x ")].
Proof. by vm_compute. Qed.

End EndToEnd.

(** * Further properties of the code *)

(** ** Stripped text *)

Section Tight.

Implicit Types (s t w : str) (c : char).

Lemma lstrip_head s c r : lstrip s = c :: r -> isspace c = false.
Proof.
  induction s as [|a s IH]; simpl; [done|].
  destruct (isspace a) eqn:E; [done|]. by intros [= <- _].
Qed.

Lemma lstrip_last s :
  lstrip s <> [] -> last (lstrip s) = last s.
Proof.
  induction s as [|a s IH]; simpl; [done|].
  destruct (isspace a) eqn:E; [|done].
  intros H. rewrite IH by done. destruct s; [done|]. done.
Qed.

Lemma rstrip_last s c : last (rstrip s) = Some c -> isspace c = false.
Proof.
  revert c. induction s as [|a s IH]; intros c; simpl; [done|].
  destruct (rstrip s) as [|b r] eqn:E.
  - destruct (isspace a) eqn:Ha; [done|]. by intros [= <-].
  - rewrite last_cons_cons. apply IH.
Qed.

Lemma strip_tight s : tight (strip s).
Proof.
  unfold tight, strip. destruct (lstrip (rstrip s)) as [|c r] eqn:E; [done|].
  split; [by eapply lstrip_head|].
  destruct (last (c :: r)) as [c'|] eqn:El.
  - exists c'. split; [done|]. rewrite <- E in El.
    rewrite lstrip_last in El by (rewrite E; done).
    by eapply rstrip_last.
  - by apply last_None in El.
Qed.

Lemma tight_strip s : tight s -> strip s = s.
Proof.
  destruct s as [|c r]; [done|]. intros [Hc [c' [Hl Hc']]].
  apply last_Some in Hl as [l' Hl]. unfold strip.
  rewrite Hl, rstrip_nonspace by done. rewrite <- Hl.
  by apply lstrip_nonspace.
Qed.

Lemma strip_idemp s : strip (strip s) = strip s.
Proof. apply tight_strip, strip_tight. Qed.

Lemma strip_only_spaces w : spaces w -> strip w = [].
Proof.
  intros Hw.
  pose proof (strip_in_spaces w [] [] Hw ltac:(constructor)) as H.
  simpl in H. rewrite app_nil_r in H. exact H.
Qed.

Lemma tight_app s t :
  s <> [] -> t <> [] -> tight s -> tight t -> forall m, tight (s ++ m ++ t).
Proof.
  intros Hs Ht Hts Htt m. destruct s as [|c r]; [done|].
  destruct t as [|d u]; [done|].
  destruct Hts as [Hc _]. destruct Htt as [_ [d' [Hl Hd']]].
  simpl. split; [done|]. exists d'. split; [|done].
  change (c :: r ++ m ++ d :: u) with ((c :: r) ++ m ++ d :: u).
  by rewrite !last_app, Hl.
Qed.

Lemma tight_join sep (ls : list str) :
  Forall (fun l => l <> [] /\ tight l) ls -> tight (Bs4.join sep ls).
Proof.
  induction 1 as [|l ls [Hl Ht] Hls IH]; [done|].
  destruct ls as [|l' ls]; [done|].
  change (tight (l ++ sep ++ Bs4.join sep (l' :: ls))).
  apply tight_app; try done.
  apply Forall_inv in Hls as [Hl' _].
  simpl. destruct ls; [done|]. by destruct l'.
Qed.

End Tight.

(** ** The normalizer, further *)

Section NormalizerMore.

Import Bs4.

Lemma Forall_flat_map_intro {A B} (P : B -> Prop) (f : A -> list B) l :
  Forall (fun x => Forall P (f x)) l -> Forall P (flat_map f l).
Proof. induction 1; simpl; [constructor | by apply Forall_app]. Qed.

Lemma all_strings_tight t :
  Forall (fun l => l <> [] /\ tight l) (all_strings t).
Proof.
  induction t as [n cs IH | c s] using node_induction; simpl.
  - by apply Forall_flat_map_intro.
  - destruct (interesting c); [|constructor].
    destruct (strip s) eqn:E; [constructor|].
    constructor; [|constructor]. split; [done|].
    rewrite <- E. apply strip_tight.
Qed.

Lemma get_text_tight sep sp : tight (get_text sep sp).
Proof.
  apply tight_join, Forall_flat_map_intro, Forall_forall.
  intros t _. apply all_strings_tight.
Qed.

Lemma find_all_decompose names t :
  flat_map (find_all names) (decompose_all names t) = [].
Proof.
  induction t as [n cs IH | c s] using node_induction; simpl; [|done].
  destruct (name_in names n) eqn:E; simpl; [done|]. rewrite E, app_nil_r.
  simpl. rewrite flat_map_flat_map.
  induction IH as [|t cs Ht _ IHcs]; simpl; [done|]. by rewrite Ht, IHcs.
Qed.

Lemma decompose_without names t :
  find_all names t = [] -> decompose_all names t = [t].
Proof.
  induction t as [n cs IH | c s] using node_induction; simpl; [|done].
  destruct (name_in names n) eqn:E; simpl; [done|].
  intros H. f_equal. f_equal.
  induction IH as [|t cs Ht _ IHcs]; simpl in *; [done|].
  apply app_eq_nil in H as [H1 H2]. by rewrite Ht, IHcs.
Qed.

Lemma decompose_soup_without names sp :
  flat_map (find_all names) sp = [] -> decompose_soup names sp = sp.
Proof.
  unfold decompose_soup. induction sp as [|t sp IH]; simpl; [done|].
  intros [H1 H2]%app_eq_nil. by rewrite decompose_without, IH.
Qed.

End NormalizerMore.

(** X1.  After the loop of [clean_html] has run, a second search for
    [script], [style] and [noscript] finds nothing, at any depth and for
    any list of names; running the loop again changes nothing; and a tree
    in which the search finds nothing is left as it is. *)
Theorem decompose_leaves_no_block (names : list str) (sp : soup) :
  flat_map (find_all names) (Bs4.decompose_soup names sp) = []
  /\ Bs4.decompose_soup names (Bs4.decompose_soup names sp)
     = Bs4.decompose_soup names sp
  /\ (flat_map (find_all names) sp = [] -> Bs4.decompose_soup names sp = sp).
Proof.
  assert (flat_map (find_all names) (Bs4.decompose_soup names sp) = []) as H.
  { unfold Bs4.decompose_soup. rewrite flat_map_flat_map.
    induction sp as [|t sp IH]; simpl; [done|].
    by rewrite find_all_decompose, IH. }
  split; [done|]. split; [by apply decompose_soup_without|].
  apply decompose_soup_without.
Qed.

(** X2.  The text [clean_html] returns has no whitespace at either end:
    stripping it again gives the same text, so the length the guard of
    the extractor measures is the length of the text itself. *)
Theorem clean_html_is_stripped (X : externals) (html : str) :
  tight (clean_html X html)
  /\ strip (clean_html X html) = clean_html X html
  /\ len (strip (clean_html X html)) = len (clean_html X html).
Proof.
  assert (tight (clean_html X html)) as H by apply get_text_tight.
  split; [done|]. by rewrite tight_strip.
Qed.

(** X3.  A text made of whitespace only is refused with status 400
    however long it is, and nothing is called. *)
Theorem whitespace_text_is_refused (X : externals) (text : str) (w : world) :
  spaces text ->
  extract_profile_data X text w
  = (Raises (HTTPException 400 (lit "Insufficient profile text extracted.")),
     w).
Proof.
  intros H. apply extract_short. by rewrite strip_only_spaces.
Qed.

(** X4.  The URL the orchestrator resolves always contains the host and
    ends with the identifier; resolving a resolved URL changes nothing;
    the empty identifier resolves to the bare profile prefix. *)
Theorem resolve_url_is_stable (username : str) :
  contains (lit "naukri.com") (resolve_url username) = true
  /\ resolve_url (resolve_url username) = resolve_url username
  /\ (exists a, resolve_url username = a ++ username)
  /\ resolve_url [] = lit "https://www.naukri.com/code360/profile/".
Proof.
  assert (contains (lit "naukri.com") (resolve_url username) = true) as H.
  { unfold resolve_url. destruct (contains _ username) eqn:E; cbn [negb];
      [done|].
    apply contains_spec.
    exists (lit "https://www."), (lit "/code360/profile/" ++ username).
    by rewrite !app_assoc. }
  split; [done|]. split; [|split].
  - unfold resolve_url at 1. rewrite H. reflexivity.
  - unfold resolve_url. destruct (contains _ username); cbn [negb];
      [by exists [] | eauto].
  - by vm_compute.
Qed.

(** ** The fences, further *)

Section FencesMore.

Implicit Types (s t p : str) (c : char).

Lemma contains_startswith p s : contains p s = false -> startswith p s = false.
Proof. destruct s; simpl; by intros [H _]%orb_false_iff. Qed.

Lemma contains_tail p c s : contains p (c :: s) = false -> contains p s = false.
Proof. simpl. by intros [_ H]%orb_false_iff. Qed.

Lemma replace_step o old new c s :
  startswith (o :: old) (c :: s) = false ->
  replace (o :: old) new (c :: s) = c :: replace (o :: old) new s.
Proof. intros H. rewrite !replace_nonempty. cbn [replace_from]. by rewrite H. Qed.

(** A text without the pattern is left alone. *)
Lemma replace_absent o old new s :
  contains (o :: old) s = false -> replace (o :: old) new s = s.
Proof.
  induction s as [|c s IH]; intros H; [done|].
  rewrite replace_step by (by apply contains_startswith).
  rewrite IH; [done | by eapply contains_tail].
Qed.

(** What is cut out begins with [c], so a result that begins with [c]
    comes from a text that does. *)
Lemma replace_head c old s r :
  replace (c :: old) [] s = c :: r -> exists s', s = c :: s'.
Proof.
  destruct s as [|a s]; [done|]. destruct (decide (a = c)) as [-> | Hne];
    [eauto|].
  rewrite replace_other_head by done. by intros [= -> _].
Qed.

(** Runs of [c] are cut from their left end three at a time, so fewer
    than three are left of each. *)
Lemma replace_triple_none c s :
  contains [c; c; c] (replace [c; c; c] [] s) = false.
Proof.
  remember (length s) as n eqn:Hn. revert s Hn.
  induction (lt_wf n) as [n _ IH]. intros s ->.
  destruct s as [|a s]; [done|].
  destruct (startswith [c; c; c] (a :: s)) eqn:Hpre.
  - apply startswith_spec in Hpre as [t Ht]. rewrite Ht.
    rewrite (replace_occurrence c [c; c] [] t). simpl.
    eapply IH; [|done]. rewrite Ht. simpl. lia.
  - rewrite replace_step by done.
    cbn [contains]. rewrite (IH (length s)) by (simpl; lia || done).
    rewrite orb_false_r.
    destruct (startswith [c; c; c] (a :: replace [c; c; c] [] s)) eqn:Hout;
      [|done].
    exfalso. apply startswith_spec in Hout as [t Ht].
    simpl in Ht. injection Ht as -> Ht.
    apply replace_head in Ht as Hs. destruct Hs as [s1 ->].
    destruct (startswith [c; c; c] (c :: s1)) eqn:Hpre1.
    { apply startswith_spec in Hpre1 as [t1 Ht1]. simpl in Ht1.
      injection Ht1 as ->. simpl in Hpre. by rewrite !N.eqb_refl in Hpre. }
    rewrite replace_step in Ht by done. injection Ht as Ht.
    apply replace_head in Ht as [s2 ->].
    simpl in Hpre. by rewrite !N.eqb_refl in Hpre.
Qed.

Lemma contains_strip p s : contains p (strip s) = true -> contains p s = true.
Proof.
  rewrite !contains_spec. intros [a [b E]].
  destruct (strip_split s) as [w1 [w2 [_ [_ Es]]]].
  exists (w1 ++ a), (b ++ w2). rewrite Es, E. by rewrite <- !app_assoc.
Qed.

Lemma contains_longer p q s :
  contains p s = false -> contains (p ++ q) s = false.
Proof.
  intros H. destruct (contains (p ++ q) s) eqn:E; [|done].
  apply contains_spec in E as [a [b E]].
  assert (contains p s = true) as H'
    by (apply contains_spec; exists a, (q ++ b); by rewrite E, <- app_assoc).
  congruence.
Qed.

Lemma strip_fences_no_ticks s : contains (lit "```") (strip_fences s) = false.
Proof.
  unfold strip_fences.
  destruct (contains _ (strip _)) eqn:E; [|done].
  apply contains_strip in E.
  change (lit "```") with [96; 96; 96] in E.
  by rewrite replace_triple_none in E.
Qed.

End FencesMore.

(** X5.  The text that line 98 leaves holds no fence marker, labelled or
    not, and no whitespace at either end; cleaning it again changes
    nothing.  So the text kept in the fallback record never shows a
    fence. *)
Theorem strip_fences_leaves_no_marker (s : str) :
  contains (lit "```") (strip_fences s) = false
  /\ contains (lit "```json") (strip_fences s) = false
  /\ tight (strip_fences s)
  /\ strip_fences (strip_fences s) = strip_fences s.
Proof.
  pose proof (strip_fences_no_ticks s) as H.
  assert (contains (lit "```json") (strip_fences s) = false) as H'
    by apply (contains_longer (lit "```") (lit "json")), H.
  split; [done|]. split; [done|]. split; [apply strip_tight|].
  unfold strip_fences at 1.
  change (lit "```json") with [96; 96; 96; 106; 115; 111; 110] in *.
  change (lit "```") with [96; 96; 96] in *.
  rewrite (replace_absent _ _ _ _ H'), (replace_absent _ _ _ _ H).
  apply strip_idemp.
Qed.

(** X6.  Whitespace around the model's response, before or after a
    fence or the text itself, does not change what is extracted. *)
Theorem response_padding_is_ignored
    (X : externals) (w1 content w2 : str) :
  spaces w1 -> spaces w2 ->
  parse_response X (w1 ++ content ++ w2) = parse_response X content.
Proof.
  intros H1 H2. unfold parse_response. by rewrite strip_in_spaces.
Qed.

(** ** The stages, further *)

(** X7.  Past the guard, only the decoding is covered by the fallback: an
    exception of the client's constructor or of the invocation leaves the
    extractor as it is, and a response that decodes is returned as
    decoded, whatever its shape. *)
Theorem only_decoding_falls_back (X : externals) (text : str) (w : world) :
  (100 <= len (strip text))%Z ->
  let key := environ w !! lit "GROQ_API_KEY" in
  let prompt := render_prompt text in
  let r := extract_profile_data X text w in
  (forall m, ChatGroq_init X key = Some m ->
     r = (Raises (Exception m), log [ClientInit key] w))
  /\ (ChatGroq_init X key = None ->
      (forall m, chain_invoke X key prompt = inr m ->
         r = (Raises (Exception m), log [ClientInit key; Invoke key prompt] w))
      /\ (forall content v,
            chain_invoke X key prompt = inl content ->
            json_loads X (strip_fences (strip content)) = Some v ->
            r = (Returns v, log [ClientInit key; Invoke key prompt] w))).
Proof.
  intros Hlen key prompt r. subst r.
  rewrite extract_long, invoke_model_run by done. cbv zeta.
  fold key prompt. split.
  - by intros m ->.
  - intros ->. split.
    + by intros m ->.
    + intros content v -> Hv. unfold parse_response. by rewrite Hv.
Qed.

(** X8.  Whatever happens, [save_json] changes no file other than its
    target, starts or ends no browser session and leaves the environment
    alone. *)
Theorem save_json_touches_only_its_target
    (X : externals) (data : pyval) (filename : str) (w : world) :
  let path := path_join (getcwd X) filename in
  let w' := (save_json X data filename w).2 in
  (forall other, other <> path -> files w' !! other = files w !! other)
  /\ environ w' = environ w
  /\ live w' = live w
  /\ next_driver w' = next_driver w.
Proof.
  cbv zeta. rewrite save_json_run. cbv zeta.
  destruct (files w !! _) eqn:Hf.
  - destruct (os_remove X _); [done|].
    rewrite write_json_run. cbv zeta.
    destruct (open_w X _); [|destruct (file_write X _ _) as [[k m]|]];
      unfold log, with_files; simpl; (split; [|done]); intros other Hne;
      rewrite ?lookup_insert_ne by done; by rewrite lookup_delete_ne.
  - rewrite write_json_run. cbv zeta.
    destruct (open_w X _); [|destruct (file_write X _ _) as [[k m]|]];
      unfold log; simpl; (split; [|done]); intros other Hne;
      by rewrite ?lookup_insert_ne.
Qed.

(** X9.  [save_json] returns exactly when every step it takes succeeds:
    the removal, if a file was there, the opening and the write.  It then
    returns the target path, and the target holds the serialized record
    whatever it held before. *)
Theorem save_json_returns_iff
    (X : externals) (data : pyval) (filename : str) (w : world) :
  let path := path_join (getcwd X) filename in
  let text := json_dumps X data in
  let r := save_json X data filename w in
  ((exists p, r.1 = Returns p)
   <-> (is_Some (files w !! path) -> os_remove X path = None)
       /\ open_w X path = None /\ file_write X path text = None)
  /\ (forall p, r.1 = Returns p ->
        p = path
        /\ files r.2 = <[path := text]> (files w)
        /\ files r.2 !! path = Some text).
Proof.
  cbv zeta. rewrite save_json_run. cbv zeta.
  destruct (files w !! _) eqn:Hf.
  - destruct (os_remove X _) eqn:Hrm.
    { split; [|by intros p [=]]. split; [by intros [p [=]]|].
      intros [H _]. by specialize (H ltac:(eauto)). }
    rewrite write_json_run. cbv zeta.
    destruct (open_w X _) eqn:Hop;
      [|destruct (file_write X _ _) as [[k m]|] eqn:Hwr];
      unfold log, with_files; simpl.
    + split; [|by intros p [=]]. split; [by intros [p [=]]|].
      by intros [_ [[=] _]].
    + split; [|by intros p [=]]. split; [by intros [p [=]]|].
      by intros [_ [_ [=]]].
    + split; [split; [done | eauto]|]. intros p [= <-].
      rewrite insert_delete_eq, lookup_insert_eq. done.
  - rewrite write_json_run. cbv zeta.
    destruct (open_w X _) eqn:Hop;
      [|destruct (file_write X _ _) as [[k m]|] eqn:Hwr];
      unfold log; simpl.
    + split; [|by intros p [=]]. split; [by intros [p [=]]|].
      by intros [_ [[=] _]].
    + split; [|by intros p [=]]. split; [by intros [p [=]]|].
      by intros [_ [_ [=]]].
    + split.
      { split; [|eauto]. intros _. split; [|done]. by intros [? [=]]. }
      intros p [= <-]. by rewrite lookup_insert_eq.
Qed.

(** X10.  [fetch_profile_html] returns a page exactly when the launch,
    the navigation, the screenshot, the reading of the page source and
    the quit all succeed; the page is then the source the driver gave,
    and the calls were made in that order, with the five-second wait
    after the navigation. *)
Theorem fetch_returns_iff
    (X : externals) (profile_url html : str) (w : world) :
  let shot := path_join (getcwd X) (lit "profile_ss.png") in
  let d := next_driver w in
  let r := fetch_profile_html X profile_url w in
  (r.1 = Returns html
   <-> chrome_launch X = None /\ driver_get X profile_url = None
       /\ driver_save_screenshot X shot = None
       /\ driver_page_source X profile_url = inl html
       /\ driver_quit X = None)
  /\ (r.1 = Returns html ->
      trace r.2
      = trace w ++ [Launch d; Get d profile_url; Sleep 5;
                    SaveScreenshot d shot; PageSource d; Quit d]).
Proof.
  cbv zeta. rewrite fetch_run. unfold browse.
  destruct (chrome_launch X); cbv zeta.
  { split; [|by intros [=]]. split; [by intros [=] | by intros [[=] _]]. }
  destruct (driver_quit X); cbn [fst snd trace].
  { split; [|by intros [=]].
    split; [by intros [=] | by intros [_ [_ [_ [_ [=]]]]]]. }
  destruct (driver_get X _); cbn [fst snd].
  { split; [|by intros [=]].
    split; [by intros [=] | by intros [_ [[=] _]]]. }
  destruct (driver_save_screenshot X _); cbn [fst snd].
  { split; [|by intros [=]].
    split; [by intros [=] | by intros [_ [_ [[=] _]]]]. }
  destruct (driver_page_source X _); cbn [fst snd].
  - split; [|done]. split; [by intros [= ->]|].
    by intros [_ [_ [_ [[= ->] _]]]].
  - split; [|by intros [=]].
    split; [by intros [=] | by intros [_ [_ [_ [[=] _]]]]].
Qed.

(** X11.  Inside the [try], a failed navigation ends the session at once:
    no wait, no screenshot, no page source, only the quit.  And a quit
    that raises takes the place of whatever the [try] produced, a page
    that was read included; the request then ends with status 500. *)
Theorem fetch_failure_paths
    (X : externals) (username : str) (w : world) :
  chrome_launch X = None ->
  let profile_url := resolve_url username in
  let d := next_driver w in
  let f := fetch_profile_html X profile_url w in
  (forall m, driver_get X profile_url = Some m ->
     trace f.2 = trace w ++ [Launch d; Get d profile_url; Quit d]
     /\ (driver_quit X = None -> f.1 = Raises (Exception m)))
  /\ (forall m, driver_quit X = Some m ->
        f.1 = Raises (Exception m)
        /\ (scrape_profile X username w).1 = Raises (Exception m)
        /\ status_code_of (scrape_profile X username w).1 = 500%Z).
Proof.
  intros Hl. cbv zeta. rewrite scrape_run. cbv zeta.
  rewrite fetch_run, Hl. cbv zeta. cbn [fst snd trace]. split.
  - intros m Hg. unfold browse. rewrite Hg. cbn [fst snd].
    split; [done|]. by intros ->.
  - by intros m ->.
Qed.

(** ** The request, further *)

Section RequestMore.

Variable X : externals.

(** The extractor changes neither the files nor the sessions nor the
    environment. *)
Lemma extract_keeps_files text w :
  files (extract_profile_data X text w).2 = files w
  /\ environ (extract_profile_data X text w).2 = environ w.
Proof.
  destruct (extract_frame X text w) as [evs [-> _]]. done.
Qed.

Lemma fetch_returns_source profile_url w html :
  (fetch_profile_html X profile_url w).1 = Returns html ->
  driver_page_source X profile_url = inl html.
Proof.
  rewrite fetch_run. unfold browse.
  destruct (chrome_launch X); cbv zeta; [by intros [=]|].
  destruct (driver_quit X); cbn [fst snd]; [by intros [=]|].
  destruct (driver_get X _); cbn [fst snd]; [by intros [=]|].
  destruct (driver_save_screenshot X _); cbn [fst snd]; [by intros [=]|].
  destruct (driver_page_source X _); by intros [= ->].
Qed.

Lemma save_json_returns data filename w p :
  (save_json X data filename w).1 = Returns p ->
  p = path_join (getcwd X) filename
  /\ files (save_json X data filename w).2 !! p = Some (json_dumps X data).
Proof.
  rewrite save_json_run. cbv zeta.
  destruct (files w !! _).
  - destruct (os_remove X _); [by intros [=]|].
    rewrite write_json_run. cbv zeta.
    destruct (open_w X _); [|destruct (file_write X _ _) as [[k m]|]];
      unfold log, with_files; simpl; intros [= <-].
    by rewrite lookup_insert_eq.
  - rewrite write_json_run. cbv zeta.
    destruct (open_w X _); [|destruct (file_write X _ _) as [[k m]|]];
      unfold log; simpl; intros [= <-].
    by rewrite lookup_insert_eq.
Qed.

Lemma clean_html_length html :
  len (strip (clean_html X html)) = len (clean_html X html).
Proof. rewrite tight_strip; [done | apply get_text_tight]. Qed.

(** The renderer writes its screenshot and no other file. *)
Lemma fetch_keeps_other_files profile_url w path :
  path <> path_join (getcwd X) (lit "profile_ss.png") ->
  files (fetch_profile_html X profile_url w).2 !! path = files w !! path.
Proof.
  intros Hne. rewrite fetch_run. destruct (chrome_launch X); [done|].
  cbv zeta. cbn [snd files]. unfold browse_files, store_screenshot.
  repeat case_match; try done. by rewrite lookup_insert_ne.
Qed.

Lemma fetch_keeps_files_early profile_url w :
  is_Some (chrome_launch X) \/ is_Some (driver_get X profile_url) ->
  files (fetch_profile_html X profile_url w).2 = files w.
Proof.
  rewrite fetch_run. intros [[m Hm] | [m Hm]].
  - by rewrite Hm.
  - destruct (chrome_launch X); [done|]. cbv zeta. cbn [snd files].
    unfold browse_files. by rewrite Hm.
Qed.

Lemma record_is_not_screenshot :
  path_join (getcwd X) (lit "profile_data.json")
  <> path_join (getcwd X) (lit "profile_ss.png").
Proof.
  unfold path_join.
  change (startswith (lit "/") (lit "profile_data.json")) with false.
  change (startswith (lit "/") (lit "profile_ss.png")) with false.
  cbv iota. destruct (last (getcwd X)) as [c|]; [|by vm_compute].
  destruct (c =? 47); intros H; repeat apply app_inv_head in H;
    by vm_compute in H.
Qed.

End RequestMore.

(** X12.  A request that returns has gone through every stage: the
    response names the resolved URL, the screenshot by its bare file name
    and the record file by its path in the working directory; its record
    is the post-processed response of the model to the prompt built from
    the normalized page, which had at least 100 characters; and the
    record file holds the serialization of exactly that record. *)
Theorem returned_response_is_complete
    (X : externals) (username : str) (w w' : world) (r : response) :
  scrape_profile X username w = (Returns r, w') ->
  let key := environ w !! lit "GROQ_API_KEY" in
  success r = true
  /\ url r = resolve_url username
  /\ screenshot r = lit "profile_ss.png"
  /\ json_path r = path_join (getcwd X) (lit "profile_data.json")
  /\ files w' !! json_path r = Some (json_dumps X (data r))
  /\ exists html content,
       driver_page_source X (resolve_url username) = inl html
       /\ (100 <= len (clean_html X html))%Z
       /\ chain_invoke X key (render_prompt (clean_html X html)) = inl content
       /\ data r = parse_response X content.
Proof.
  rewrite scrape_run. cbv zeta.
  pose proof (fetch_returns_source X (resolve_url username) w) as Hsrc.
  pose proof (fetch_keeps_environ X (resolve_url username) w) as Henv.
  destruct (fetch_profile_html X _ w) as [[html|e] w1]; [|by intros [=]].
  cbn [fst snd] in *. specialize (Hsrc html eq_refl).
  pose proof (clean_html_length X html) as Hlen.
  destruct (Z.lt_ge_cases (len (strip (clean_html X html))) 100)
    as [Hlt | Hge].
  { rewrite extract_short by done. by intros [=]. }
  rewrite extract_long, invoke_model_run by done. cbv zeta.
  rewrite Henv.
  destruct (ChatGroq_init X _); [by intros [=]|].
  destruct (chain_invoke X _ _) as [content|] eqn:Hinv; [|by intros [=]].
  pose proof (save_json_returns X (parse_response X content)
                (lit "profile_data.json")
                (log [ClientInit (environ w !! lit "GROQ_API_KEY");
                      Invoke (environ w !! lit "GROQ_API_KEY")
                        (render_prompt (clean_html X html))] w1))
    as Hsave.
  destruct (save_json X _ _ _) as [[p|e] w3]; [|by intros [=]].
  cbn [fst snd] in Hsave. destruct (Hsave p eq_refl) as [-> Hfile].
  intros [= <- <-]. cbn [success url screenshot json_path data].
  repeat split; try done.
  exists html, content. repeat split; try done. lia.
Qed.

(** X13.  A request that fails in the renderer or in the extractor
    changes no file other than the screenshot, so the record of an
    earlier request is kept; when the launch or the navigation fails no
    file changes at all; a request whose renderer fails makes no call to
    the model; and no request changes the environment. *)
Theorem early_failure_keeps_the_record
    (X : externals) (username : str) (w : world) :
  let shot := path_join (getcwd X) (lit "profile_ss.png") in
  let record := path_join (getcwd X) (lit "profile_data.json") in
  let f := fetch_profile_html X (resolve_url username) w in
  let r := scrape_profile X username w in
  (forall e, f.1 = Raises e ->
     r = (Raises e, f.2)
     /\ invocations (trace r.2) = invocations (trace w)
     /\ (forall path, path <> shot -> files r.2 !! path = files w !! path)
     /\ files r.2 !! record = files w !! record)
  /\ (forall html e,
        f.1 = Returns html ->
        (extract_profile_data X (clean_html X html) f.2).1 = Raises e ->
        r.1 = Raises e
        /\ (forall path, path <> shot -> files r.2 !! path = files w !! path)
        /\ files r.2 !! record = files w !! record)
  /\ (is_Some (chrome_launch X)
      \/ is_Some (driver_get X (resolve_url username)) ->
      files r.2 = files w)
  /\ environ r.2 = environ w.
Proof.
  cbv zeta. rewrite scrape_run. cbv zeta.
  pose proof (fetch_keeps_other_files X (resolve_url username) w) as Hff.
  pose proof (fetch_keeps_files_early X (resolve_url username) w) as Hearly.
  pose proof (fetch_keeps_environ X (resolve_url username) w) as Hfe.
  pose proof (fetch_invocations X (resolve_url username) w) as Hinv.
  pose proof (record_is_not_screenshot X) as Hrec.
  assert (is_Some (chrome_launch X)
          \/ is_Some (driver_get X (resolve_url username)) ->
          forall html, (fetch_profile_html X (resolve_url username) w).1
                       <> Returns html) as Hnot.
  { intros Hcase html Hret.
    pose proof (fetch_returns_source X _ _ _ Hret) as _.
    rewrite fetch_run in Hret. unfold browse in Hret.
    destruct Hcase as [[m Hm] | [m Hm]]; rewrite Hm in Hret; [done|].
    destruct (chrome_launch X); [done|]. cbv zeta in Hret.
    cbn [fst snd] in Hret. by destruct (driver_quit X). }
  destruct (fetch_profile_html X _ w) as [[html|e] w1]; cbn [fst snd] in *.
  - split; [by intros e [=]|].
    pose proof (extract_keeps_files X (clean_html X html) w1) as [Hxf Hxe].
    split; [|split].
    + intros h e [= <-] He.
      destruct (extract_profile_data X _ w1) as [[v|e0] w2];
        cbn [fst snd] in *; [discriminate He|].
      injection He as ->. rewrite Hxf. split; [done|]. split; [done|].
      by apply Hff.
    + intros Hcase. by destruct (Hnot Hcase html).
    + destruct (extract_profile_data X _ w1) as [[v|e] w2];
        cbn [fst snd] in *; [|congruence].
      destruct (save_json_frame X v (lit "profile_data.json") w2)
        as [evs [fs [Hs _]]].
      destruct (save_json X v _ w2) as [[p|e] w3]; cbn [fst snd] in *;
        subst w3; cbn [environ]; congruence.
  - split; [|split; [intros h e' H; discriminate H | done]].
    intros e' [= <-]. split; [done|]. split; [done|]. split; [done|].
    by apply Hff.
Qed.

(** X14.  Once the page is fetched, the request ends with the bad-input
    error exactly when the normalized text itself has fewer than 100
    characters, and then nothing further is called; a page whose parse
    tree is empty is such a page. *)
Theorem short_page_is_bad_input
    (X : externals) (username html : str) (w : world) :
  let f := fetch_profile_html X (resolve_url username) w in
  let r := scrape_profile X username w in
  let bad := HTTPException 400 (lit "Insufficient profile text extracted.") in
  f.1 = Returns html ->
  ((len (clean_html X html) < 100)%Z <-> r.1 = Raises bad)
  /\ ((len (clean_html X html) < 100)%Z -> r = (Raises bad, f.2))
  /\ (html_parser X html = [] -> r = (Raises bad, f.2)).
Proof.
  cbv zeta. rewrite scrape_run. cbv zeta.
  destruct (fetch_profile_html X _ w) as [[h|e] w1]; cbn [fst snd];
    [|by intros [=]].
  intros [= ->]. pose proof (clean_html_length X html) as Hlen.
  assert ((len (clean_html X html) < 100)%Z ->
          extract_profile_data X (clean_html X html) w1
          = (Raises (HTTPException 400
                       (lit "Insufficient profile text extracted.")), w1))
    as Hshort by (intros H; apply extract_short; lia).
  split; [|split].
  - split; [by intros ->%Hshort|].
    destruct (Z.lt_ge_cases (len (clean_html X html)) 100) as [|Hge]; [done|].
    rewrite extract_long by lia.
    pose proof (invoke_model_raises X (clean_html X html) w1) as Hraise.
    destruct (invoke_model X _ w1) as [[v|e] w2]; cbn [fst snd] in *.
    + destruct (save_json_frame X v (lit "profile_data.json") w2)
        as [_ [_ [_ [_ Hs]]]].
      destruct (save_json X v _ w2) as [[p|e] w3]; cbn [fst snd] in *;
        [by intros [=]|].
      destruct (Hs e eq_refl) as [m ->]. by intros [=].
    + destruct (Hraise e eq_refl) as [m ->]. by intros [=].
  - by intros ->%Hshort.
  - intros Hempty. rewrite Hshort; [done|].
    unfold clean_html. rewrite Hempty. by vm_compute.
Qed.

(** ** Further worked instances *)

Section MoreInstances.

Import Scenario.

Lemma decompose_leaves_no_block_witness :
  let sp := Html.parse (lit "<div><p>Jane</p><br>Doe</div>") in
  Bs4.decompose_soup blocked sp = sp.
Proof.
  intros sp.
  exact (proj2 (proj2 (decompose_leaves_no_block blocked sp))
           ltac:(by vm_compute)).
Defined.

(** A hundred and fifty spaces are refused like the empty text. *)
Lemma whitespace_text_witness :
  extract_profile_data (nominal [] profile_reply) (repeat 32 150) fresh_world
  = (Raises (HTTPException 400 (lit "Insufficient profile text extracted.")),
     fresh_world).
Proof.
  apply whitespace_text_is_refused.
  by apply (bool_decide_unpack _); vm_compute.
Defined.

Lemma response_padding_witness :
  parse_response (nominal [] []) ([nl; 32] ++ profile_reply ++ [nl])
  = parse_response (nominal [] []) profile_reply.
Proof.
  apply response_padding_is_ignored;
    by apply (bool_decide_unpack _); vm_compute.
Defined.

(** A response that is a JSON list is returned as a list. *)
Lemma only_decoding_witness :
  let X := nominal profile_page (lit "[1, 2]") in
  let text := clean_html X profile_page in
  let key := Some (lit "gsk_test") in
  extract_profile_data X text fresh_world
  = (Returns (PyList [PyInt 1; PyInt 2]),
     log [ClientInit key; Invoke key (render_prompt text)] fresh_world).
Proof.
  intros X text key.
  exact (proj2 (proj2 (only_decoding_falls_back X text fresh_world
                         ltac:(by vm_compute)) ltac:(by vm_compute))
           (lit "[1, 2]") (PyList [PyInt 1; PyInt 2])
           ltac:(by vm_compute) ltac:(by vm_compute)).
Defined.

Lemma save_json_frame_witness :
  let X := nominal [] [] in
  let w' := (save_json X PyNone (lit "other.json") used_world).2 in
  files w' !! lit "/srv/app/profile_data.json"
  = files used_world !! lit "/srv/app/profile_data.json".
Proof.
  intros X w'.
  exact (proj1 (save_json_touches_only_its_target X PyNone
                  (lit "other.json") used_world)
           (lit "/srv/app/profile_data.json") ltac:(by vm_compute)).
Defined.

Lemma save_json_returns_witness :
  let X := nominal [] [] in
  let r := save_json X PyNone (lit "profile_data.json") used_world in
  files r.2 !! lit "/srv/app/profile_data.json" = Some (lit "null").
Proof.
  intros X r.
  exact (proj2 (proj2 (proj2 (save_json_returns_iff X PyNone
                                (lit "profile_data.json") used_world)
                         (lit "/srv/app/profile_data.json")
                         ltac:(by vm_compute)))).
Defined.

Lemma fetch_returns_witness :
  let X := nominal profile_page profile_reply in
  let url := lit "https://www.naukri.com/code360/profile/jdoe123" in
  let shot := lit "/srv/app/profile_ss.png" in
  trace (fetch_profile_html X url fresh_world).2
  = [Launch 0; Get 0 url; Sleep 5; SaveScreenshot 0 shot; PageSource 0;
     Quit 0].
Proof.
  intros X url shot.
  exact (proj2 (fetch_returns_iff X url profile_page fresh_world)
           ltac:(by vm_compute)).
Defined.

Lemma fetch_failure_witness :
  let X := with_get (Some (lit "net::ERR_NAME_NOT_RESOLVED"))
                    (nominal profile_page profile_reply) in
  let url := lit "https://www.naukri.com/code360/profile/jdoe123" in
  trace (fetch_profile_html X (resolve_url (lit "jdoe123")) fresh_world).2
  = [Launch 0; Get 0 url; Quit 0].
Proof.
  intros X url.
  exact (proj1 (proj1 (fetch_failure_paths X (lit "jdoe123") fresh_world
                         ltac:(by vm_compute))
                  (lit "net::ERR_NAME_NOT_RESOLVED") ltac:(by vm_compute))).
Defined.

Lemma returned_response_witness :
  let X := nominal profile_page profile_reply in
  let r := scrape_profile X (lit "jdoe123") fresh_world in
  files r.2 !! lit "/srv/app/profile_data.json"
  = Some (Json.dumps (parse_response X profile_reply)).
Proof.
  intros X r.
  exact (proj1 (proj2 (proj2 (proj2 (proj2
           (returned_response_is_complete X (lit "jdoe123") fresh_world r.2
              (Response true
                 (lit "https://www.naukri.com/code360/profile/jdoe123")
                 (lit "profile_ss.png") (lit "/srv/app/profile_data.json")
                 (parse_response X profile_reply))
              ltac:(by vm_compute))))))).
Defined.

(** A page too short for the extractor: the screenshot is written, the
    record of the earlier request stays. *)
Lemma early_failure_witness :
  let X := nominal (lit "<p>404</p>") profile_reply in
  let record := path_join (getcwd X) (lit "profile_data.json") in
  let r := scrape_profile X (lit "jdoe123") used_world in
  files r.2 !! record = files used_world !! record.
Proof.
  intros X record r.
  exact (proj2 (proj2 (proj1 (proj2
           (early_failure_keeps_the_record X (lit "jdoe123") used_world))
           (lit "<p>404</p>")
           (HTTPException 400 (lit "Insufficient profile text extracted."))
           ltac:(by vm_compute) ltac:(by vm_compute)))).
Defined.

Lemma short_page_witness :
  let X := nominal (lit "<html><body><p>404</p></body></html>")
                   profile_reply in
  (scrape_profile X (lit "jdoe123") fresh_world).1
  = Raises (HTTPException 400 (lit "Insufficient profile text extracted.")).
Proof.
  intros X.
  exact (proj1 (proj1 (short_page_is_bad_input X (lit "jdoe123")
                         (lit "<html><body><p>404</p></body></html>")
                         fresh_world ltac:(by vm_compute)))
           ltac:(by vm_compute)).
Defined.

End MoreInstances.
